(** * Course-registration validation rules (registration_refactor.py)

    A shallow embedding of the rule-based validation engine: the
    [StudentRegistration] request, the [IValidationRule] interface with its
    three implementations, and the [RegistrationService] coordinator.

    Python objects are passed by reference and any method may mutate the
    objects it can reach, raise, or print.  Methods are therefore embedded
    in a state-and-exception monad over the objects they reach; that a
    method leaves an object alone is a theorem, not a typing accident. *)

From stdpp Require Import gmap strings list fin_maps pretty.

Local Open Scope Z_scope.
Local Open Scope string_scope.
Local Open Scope list_scope.

(** ** Exceptions and the method monad *)

Inductive exn : Type :=
| NotImplementedError.

Inductive res (A : Type) : Type :=
| Ok (a : A)
| Raise (e : exn).
Arguments Ok {A} a.
Arguments Raise {A} e.

(** A computation over a store [S]: it yields a value or raises, and in
    both cases leaves a store behind. *)
Definition M (S A : Type) : Type := S → res A * S.

Definition ret {S A} (a : A) : M S A := λ s, (Ok a, s).

Definition bind {S A B} (m : M S A) (f : A → M S B) : M S B :=
  λ s, match m s with
       | (Ok a, s') => f a s'
       | (Raise e, s') => (Raise e, s')
       end.

Definition raise {S A} (e : exn) : M S A := λ s, (Raise e, s).
Definition gets {S A} (f : S → A) : M S A := λ s, (Ok (f s), s).
Definition modify {S} (f : S → S) : M S unit := λ s, (Ok tt, f s).

#[global] Instance M_ret {S} : MRet (M S) := λ A, ret.
#[global] Instance M_bind {S} : MBind (M S) := λ A B f m, bind m f.

(** [for x in xs: body], where [body] may execute a [return]: [Some r]
    stands for "returned [r]", [None] for "fell through". *)
Fixpoint for_in {S A R} (xs : list A) (body : A → M S (option R)) : M S (option R) :=
  match xs with
  | [] => ret None
  | x :: rest =>
      bind (body x) (λ o, match o with
                          | Some r => ret (Some r)
                          | None => for_in rest body
                          end)
  end.

(** ** The request *)

Record StudentRegistration : Type := {
  student_id : string;
  name : string;
  current_sks : Z;
  requested_sks : Z;
  completed_courses : list string;
  requested_courses : list string;
  schedule : list string
}.

(** ** The rule interface *)

(** The store a [validate] call works on: the rule object and the request. *)
Record Frame (T : Type) : Type := {
  f_self : T;
  f_reg : StudentRegistration
}.
Arguments f_self {T} _.
Arguments f_reg {T} _.

Definition get_self {T} : M (Frame T) T := gets f_self.
Definition get_reg {T} : M (Frame T) StudentRegistration := gets f_reg.

Class IValidationRule (T : Type) : Type := {
  class_name : string;
  validate : M (Frame T) (bool * string)
}.
Arguments class_name T {_}.
Arguments validate T {_}.

(** The body of the abstract method. *)
Definition IValidationRule_validate {T} : M (Frame T) (bool * string) :=
  raise NotImplementedError.

(** ** Rule 1: credit limit *)

Record SksLimitRule : Type := { max_sks : Z }.

Definition SksLimitRule_init (max_sks : option Z) : res SksLimitRule :=
  Ok {| max_sks := default 24 max_sks |}.

Definition sks_message (cap : Z) : string :=
  "Gagal: Melebihi batas SKS (max " +:+ pretty cap +:+ ").".

Definition SksLimitRule_validate : M (Frame SksLimitRule) (bool * string) :=
  reg ← get_reg;
  self ← get_self;
  if bool_decide (current_sks reg + requested_sks reg > max_sks self)
  then mret (false, sks_message (max_sks self))
  else mret (true, "").

#[global] Instance SksLimitRule_rule : IValidationRule SksLimitRule := {
  class_name := "SksLimitRule";
  validate := SksLimitRule_validate
}.

(** ** Rule 2: prerequisites *)

Record PrerequisiteRule : Type := { prereq_map : gmap string (list string) }.

Definition PrerequisiteRule_init (prereq_map : gmap string (list string))
  : res PrerequisiteRule :=
  Ok {| prereq_map := prereq_map |}.

Definition prereq_message (req course : string) : string :=
  "Gagal: Prasyarat " +:+ req +:+ " belum terpenuhi untuk " +:+ course +:+ ".".

Definition PrerequisiteRule_validate : M (Frame PrerequisiteRule) (bool * string) :=
  reg ← get_reg;
  returned ← for_in (requested_courses reg) (λ course,
    self ← get_self;
    let required := default [] (prereq_map self !! course) in
    for_in required (λ req,
      reg ← get_reg;
      if bool_decide (req ∉ completed_courses reg)
      then mret (Some (false, prereq_message req course))
      else mret None));
  match returned with
  | Some r => mret r
  | None => mret (true, "")
  end.

#[global] Instance PrerequisiteRule_rule : IValidationRule PrerequisiteRule := {
  class_name := "PrerequisiteRule";
  validate := PrerequisiteRule_validate
}.

(** ** Rule 3: schedule conflicts *)

Record JadwalBentrokRule : Type := {
  existing_schedule : list string;
  course_slot_map : gmap string string
}.

Definition default_course_slot_map : gmap string string :=
  <["CS101" := "Mon-09"]> (<["CS102" := "Tue-11"]>
  (<["CS201" := "Mon-09"]> (<["MA101" := "Wed-10"]> ∅))).

(** [x or d]: an omitted argument is [None]; an empty list or dict is
    falsy as well, so it too is replaced by the default. *)
Definition JadwalBentrokRule_init
    (existing_schedule : option (list string))
    (course_slot_map : option (gmap string string)) : res JadwalBentrokRule :=
  Ok {| existing_schedule :=
          match existing_schedule with
          | Some (x :: l) => x :: l
          | _ => []
          end;
        course_slot_map :=
          match course_slot_map with
          | Some m => if decide (m = ∅) then default_course_slot_map else m
          | None => default_course_slot_map
          end |}.

Definition bentrok_message (course slot : string) : string :=
  "Gagal: Jadwal bentrok untuk " +:+ course +:+ " pada slot " +:+ slot +:+ ".".

(** The [for] loop of [validate]; the local set [occupied], which the loop
    grows with [occupied.add(slot)], is the accumulator. *)
Fixpoint bentrok_loop (courses : list string) (occupied : gset string)
  : M (Frame JadwalBentrokRule) (bool * string) :=
  match courses with
  | [] => mret (true, "")
  | course :: rest =>
      self ← get_self;
      match course_slot_map self !! course with
      | None => bentrok_loop rest occupied
      | Some slot =>
          if bool_decide (slot ∈ occupied)
          then mret (false, bentrok_message course slot)
          else bentrok_loop rest ({[slot]} ∪ occupied)
      end
  end.

Definition JadwalBentrokRule_validate : M (Frame JadwalBentrokRule) (bool * string) :=
  self ← get_self;
  reg ← get_reg;
  let occupied : gset string := list_to_set (existing_schedule self ++ schedule reg) in
  reg ← get_reg;
  bentrok_loop (requested_courses reg) occupied.

#[global] Instance JadwalBentrokRule_rule : IValidationRule JadwalBentrokRule := {
  class_name := "JadwalBentrokRule";
  validate := JadwalBentrokRule_validate
}.

(** ** The coordinator *)

(** A rule object of any class implementing the interface. *)
Inductive rule : Type :=
| Rule (T : Type) `{IValidationRule T} (self : T).

Definition rule_class_name (r : rule) : string :=
  match r with
  | @Rule T _ _ => class_name T
  end.

(** [rule.validate(reg)]: dynamic dispatch on the class of [r]; the call
    hands back the outcome together with the rule object and the request
    as the method left them. *)
Definition call_validate (r : rule) (reg : StudentRegistration)
  : res (bool * string) * rule * StudentRegistration :=
  match r with
  | @Rule T _ self =>
      let '(o, fr) := validate T {| f_self := self; f_reg := reg |} in
      (o, Rule T (f_self fr), f_reg fr)
  end.

Record RegistrationService : Type := { rules : list rule }.

Definition RegistrationService_init (rules : list rule) : res RegistrationService :=
  Ok {| rules := rules |}.

(** The store of a [register] call: the service object, the request and
    the lines written to standard output. *)
Record World : Type := {
  w_self : RegistrationService;
  w_reg : StudentRegistration;
  w_stdout : list string
}.

Definition print (line : string) : M World unit :=
  modify (λ w, {| w_self := w_self w; w_reg := w_reg w;
                  w_stdout := w_stdout w ++ [line] |}).

(** Calling [validate] on the rule at index [i] of [self.rules]: the rule
    object and the request are the ones the method leaves behind. *)
Definition invoke (i : nat) (r : rule) : M World (bool * string) :=
  λ w, let '(o, r', reg') := call_validate r (w_reg w) in
       (o, {| w_self := {| rules := <[i := r']> (rules (w_self w)) |};
              w_reg := reg';
              w_stdout := w_stdout w |}).

Definition log_line (rule_name : string) (ok : bool) (msg : string) : string :=
  "[" +:+ rule_name +:+ "] -> " +:+ (if ok then "OK" else "FAIL")
      +:+ (if bool_decide (msg ≠ "") then " - " +:+ msg else "").

Definition success_message : string := "Registrasi berhasil.".

Fixpoint register_loop (i : nat) (todo : list rule) : M World (bool * string) :=
  match todo with
  | [] => mret (true, success_message)
  | r :: rest =>
      '(ok, msg) ← invoke i r;
      let rule_name := rule_class_name r in
      print (log_line rule_name ok msg);;
      if negb ok then mret (false, msg) else register_loop (S i) rest
  end.

Definition register : M World (bool * string) :=
  self ← gets w_self;
  register_loop 0 (rules self).

(** ** The demonstration of the refactored service *)

#[global] Instance res_ret : MRet res := λ A, Ok.
#[global] Instance res_bind : MBind res := λ A B f m,
  match m with
  | Ok a => f a
  | Raise e => Raise e
  end.

(** [demo_after_refactor] builds a request and a rule list, then calls
    [register] and prints the result; the request and the rule list are
    named here so that statements can refer to them. *)
Definition demo_reg : StudentRegistration :=
  {| student_id := "S002";
     name := "Budi";
     current_sks := 18;
     requested_sks := 6;
     completed_courses := ["CS101"];
     requested_courses := ["CS201"; "MA101"];
     schedule := ["Wed-10"] |}.

Definition demo_rules (include_jadwal_rule : bool) : res (list rule) :=
  let prereq_map : gmap string (list string) := {[ "CS201" := ["CS101"] ]} in
  sks_rule ← SksLimitRule_init (Some 24);
  prereq_rule ← PrerequisiteRule_init prereq_map;
  let rules := [Rule SksLimitRule sks_rule; Rule PrerequisiteRule prereq_rule] in
  if include_jadwal_rule
  then jadwal_rule ← JadwalBentrokRule_init (Some ["Mon-09"]) None;
       mret (rules ++ [Rule JadwalBentrokRule jadwal_rule])
  else mret rules.

(** [print] renders a boolean as [True] or [False]. *)
Definition bool_str (b : bool) : string := if b then "True" else "False".

Definition demo_after_refactor (include_jadwal_rule : bool) : M (list string) unit :=
  λ out,
    let out := out ++ [String (Ascii.ascii_of_nat 10) "=== Demo AFTER refactor (RegistrationService with Rules) ==="] in
    match rules ← demo_rules include_jadwal_rule; RegistrationService_init rules with
    | Raise e => (Raise e, out)
    | Ok service =>
        match register {| w_self := service; w_reg := demo_reg; w_stdout := out |} with
        | (Raise e, w) => (Raise e, w_stdout w)
        | (Ok (ok, msg), w) =>
            (Ok tt, w_stdout w
                    ++ ["Hasil RegistrationService: " +:+ bool_str ok +:+ " " +:+ msg]
                    ++ [""])
        end
    end.

(** * Vocabulary of the properties *)

(** [returns m s a]: run from store [s], the computation [m] yields [a]
    without raising and leaves the store exactly as it found it. *)
Definition returns {S A} (m : M S A) (s : S) (a : A) : Prop := m s = (Ok a, s).

(** The (course, prerequisite) pairs in the order the specification
    prescribes: requested courses in their order, each with its
    prerequisites in their order; a course without a map entry has none. *)
Definition prerequisite_checks (self : PrerequisiteRule) (reg : StudentRegistration)
  : list (string * string) :=
  requested_courses reg ≫= λ course,
    (λ req, (course, req)) <$> default [] (prereq_map self !! course).

(** The prerequisite of a pair is among the completed courses. *)
Definition satisfied (reg : StudentRegistration) (check : string * string) : Prop :=
  check.2 ∈ completed_courses reg.

(** What the body of the inner loop does with one pair: return the
    failure, or fall through. *)
Definition check_prereq (reg : StudentRegistration) (check : string * string)
  : option (bool * string) :=
  if bool_decide (check.2 ∉ completed_courses reg)
  then Some (false, prereq_message check.2 check.1)
  else None.

(** The slots of the courses that have an entry in the rule's map, in
    request order; courses without an entry contribute nothing. *)
Definition mapped_slots (self : JadwalBentrokRule) (courses : list string) : list string :=
  omap (λ course, course_slot_map self !! course) courses.

(** The request with another list of requested courses. *)
Definition with_requested (reg : StudentRegistration) (courses : list string)
  : StudentRegistration :=
  {| student_id := student_id reg;
     name := name reg;
     current_sks := current_sks reg;
     requested_sks := requested_sks reg;
     completed_courses := completed_courses reg;
     requested_courses := courses;
     schedule := schedule reg |}.

(** The store in which a service holding [rs] is asked to register [reg],
    [out] having been printed so far. *)
Definition world (rs : list rule) (reg : StudentRegistration) (out : list string) : World :=
  {| w_self := {| rules := rs |}; w_reg := reg; w_stdout := out |}.

(** [passes rs reg rs' reg' lines]: the [validate] methods of [rs], invoked
    one after the other in list order, each on the request as its
    predecessor left it, all report success; [rs'] and [reg'] are the rule
    objects and the request afterwards and [lines] is the log written. *)
Inductive passes
  : list rule → StudentRegistration → list rule → StudentRegistration → list string → Prop :=
| passes_nil reg :
    passes [] reg [] reg []
| passes_cons r rs reg msg r' reg1 rs' reg2 lines :
    call_validate r reg = (Ok (true, msg), r', reg1) →
    passes rs reg1 rs' reg2 lines →
    passes (r :: rs) reg (r' :: rs') reg2
           (log_line (rule_class_name r) true msg :: lines).

(** ** Sample inputs *)

(** The interface is open: any class with a [validate] method can be put
    in the rule list.  This client-side rule counts its invocations in its
    own field and always passes; it serves as a probe for "was invoked". *)
Record CountingRule : Type := { calls : nat }.

Definition CountingRule_validate : M (Frame CountingRule) (bool * string) :=
  modify (λ fr, {| f_self := {| calls := S (calls (f_self fr)) |};
                   f_reg := f_reg fr |});;
  mret (true, "").

#[global] Instance CountingRule_rule : IValidationRule CountingRule := {
  class_name := "CountingRule";
  validate := CountingRule_validate
}.

(** The prerequisite rule of the demonstration. *)
Definition cs201_needs_cs101 : PrerequisiteRule :=
  {| prereq_map := {[ "CS201" := ["CS101"] ]} |}.

(** A student who has completed nothing and asks for CS201. *)
Definition newcomer : StudentRegistration :=
  {| student_id := "S003";
     name := "Citra";
     current_sks := 0;
     requested_sks := 3;
     completed_courses := [];
     requested_courses := ["CS201"];
     schedule := [] |}.

(** The schedule rule of the demonstration, and one with a free week. *)
Definition monday_taken : JadwalBentrokRule :=
  {| existing_schedule := ["Mon-09"]; course_slot_map := default_course_slot_map |}.

Definition nothing_taken : JadwalBentrokRule :=
  {| existing_schedule := []; course_slot_map := default_course_slot_map |}.

(** ** Rules of the repository *)

(** The rule objects of the three classes the repository defines. *)
Inductive repo_rule : rule → Prop :=
| repo_sks (self : SksLimitRule) : repo_rule (Rule SksLimitRule self)
| repo_prereq (self : PrerequisiteRule) : repo_rule (Rule PrerequisiteRule self)
| repo_jadwal (self : JadwalBentrokRule) : repo_rule (Rule JadwalBentrokRule self).

(** [r] passes on [reg] without touching anything. *)
Definition passes_quietly (reg : StudentRegistration) (r : rule) : Prop :=
  ∃ msg, call_validate r reg = (Ok (true, msg), r, reg).

(** * The validator before the refactoring *)

(** The store of a [ValidatorManager.validate] call: the request and the
    lines written to standard output (the manager itself has no fields). *)
Record Console : Type := {
  c_reg : StudentRegistration;
  c_stdout : list string
}.

Definition echo (line : string) : M Console unit :=
  modify (λ c, {| c_reg := c_reg c; c_stdout := c_stdout c ++ [line] |}).

Definition legacy_start : string := "ValidatorManager: memulai validasi gabungan...".
Definition legacy_sks_message : string := "Gagal: Melebihi batas SKS (max 24).".
Definition legacy_prereq_message : string :=
  "Gagal: Prasyarat CS101 belum terpenuhi untuk CS201.".
Definition legacy_done : string := "Semua pengecekan ValidatorManager terlewati.".

Definition ValidatorManager_validate : M Console bool :=
  echo legacy_start;;
  reg ← gets c_reg;
  if bool_decide (current_sks reg + requested_sks reg > 24)
  then echo legacy_sks_message;; mret false
  else
    reg ← gets c_reg;
    returned ← for_in (requested_courses reg) (λ course,
      reg ← gets c_reg;
      if bool_decide (course = "CS201")
         && bool_decide ("CS101" ∉ completed_courses reg)
      then echo legacy_prereq_message;; mret (Some false)
      else mret None);
    match returned with
    | Some r => mret r
    | None =>
        reg ← gets c_reg;
        returned ← for_in (schedule reg) (λ slot,
          reg ← gets c_reg;
          if bool_decide (slot ∈ schedule reg) then mret None else mret None);
        match returned with
        | Some r => mret r
        | None => echo legacy_done;; mret true
        end
    end.

Definition demo_before_reg : StudentRegistration :=
  {| student_id := "S001";
     name := "Ani";
     current_sks := 20;
     requested_sks := 6;
     completed_courses := ["CS101"];
     requested_courses := ["CS201"];
     schedule := ["Tue-11"] |}.

Definition demo_before_refactor : M (list string) unit :=
  λ out,
    let out := out ++ [String (Ascii.ascii_of_nat 10) "=== Demo BEFORE refactor (ValidatorManager) ==="] in
    match ValidatorManager_validate {| c_reg := demo_before_reg; c_stdout := out |} with
    | (Raise e, c) => (Raise e, c_stdout c)
    | (Ok ok, c) =>
        (Ok tt, c_stdout c ++ ["Hasil ValidatorManager: " +:+ bool_str ok] ++ [""])
    end.

(** The script's entry point. *)
Definition main : M (list string) unit :=
  demo_before_refactor;;
  demo_after_refactor false;;
  demo_after_refactor true.

(** A client class that leaves the work to the abstract method. *)
Record UnfinishedRule : Type := UnfinishedRule_new { }.

#[global] Instance UnfinishedRule_rule : IValidationRule UnfinishedRule := {
  class_name := "UnfinishedRule";
  validate := IValidationRule_validate
}.

(** * Properties *)

(** ** Read-only computations *)

Section Returns.
Context {S : Type}.

Lemma returns_ret {A} (a : A) (s : S) : returns (mret a) s a.
Proof. reflexivity. Qed.

Lemma returns_gets {A} (f : S → A) (s : S) : returns (gets f) s (f s).
Proof. reflexivity. Qed.

Lemma returns_bind {A B} (m : M S A) (f : A → M S B) (s : S) a b :
  returns m s a → returns (f a) s b → returns (m ≫= f) s b.
Proof.
  unfold returns, mbind, M_bind, bind. intros Hm Hf. rewrite Hm. exact Hf.
Qed.

(** A loop whose body only reads returns at the first element on which
    the body returns, and falls through if there is none. *)
Lemma returns_for_in {A R} (g : A → option R) (body : A → M S (option R)) xs (s : S) :
  (∀ x, x ∈ xs → returns (body x) s (g x)) →
  returns (for_in xs body) s (head (omap g xs)).
Proof.
  induction xs as [|x xs IH]; intros Hbody; [reflexivity|].
  cbn [for_in]. eapply (returns_bind (body x)).
  - apply Hbody. left.
  - cbn [omap list_omap]. destruct (g x) as [r|]; [reflexivity|].
    apply IH. intros y Hy. apply Hbody. by right.
Qed.

Lemma returns_store {A} (m : M S A) (s : S) a : returns m s a → (m s).2 = s.
Proof. unfold returns. by intros ->. Qed.

Lemma returns_value {A} (m : M S A) (s : S) a : returns m s a → (m s).1 = Ok a.
Proof. unfold returns. by intros ->. Qed.

Lemma returns_inj {A} (m : M S A) (s : S) a b : returns m s a → returns m s b → a = b.
Proof. unfold returns. congruence. Qed.
End Returns.

(** ** The credit-limit rule *)

Lemma SksLimitRule_validate_returns (fr : Frame SksLimitRule) :
  returns SksLimitRule_validate fr
    (if bool_decide (current_sks (f_reg fr) + requested_sks (f_reg fr) > max_sks (f_self fr))
     then (false, sks_message (max_sks (f_self fr)))
     else (true, "")).
Proof.
  unfold SksLimitRule_validate.
  eapply returns_bind; [apply returns_gets|].
  eapply returns_bind; [apply returns_gets|].
  case_bool_decide; apply returns_ret.
Qed.

(** ** The prerequisite rule *)

Lemma head_omap_app {A B} (f : A → option B) (l1 l2 : list A) :
  head (omap f (l1 ++ l2)) =
  match head (omap f l1) with
  | Some b => Some b
  | None => head (omap f l2)
  end.
Proof.
  induction l1 as [|a l1 IH]; [reflexivity|].
  cbn [app omap list_omap]. destruct (f a); [reflexivity|exact IH].
Qed.

Lemma head_omap_bind {A B C} (f : B → option C) (k : A → list B) (l : list A) :
  head (omap f (l ≫= k)) = head (omap (λ a, head (omap f (k a))) l).
Proof.
  induction l as [|a l IH]; [reflexivity|].
  rewrite bind_cons, head_omap_app. cbn [omap list_omap].
  destruct (head (omap f (k a))); [reflexivity|exact IH].
Qed.

Lemma omap_fmap {A B C} (f : B → option C) (g : A → B) (l : list A) :
  omap f (g <$> l) = omap (λ a, f (g a)) l.
Proof.
  induction l as [|a l IH]; [reflexivity|].
  cbn [fmap list_fmap omap list_omap]. destruct (f (g a)); by rewrite <- IH.
Qed.

Lemma omap_check_satisfied reg (checks : list (string * string)) :
  Forall (satisfied reg) checks → omap (check_prereq reg) checks = [].
Proof.
  induction 1 as [|c checks Hc _ IH]; [reflexivity|].
  cbn [omap list_omap]. unfold check_prereq at 1.
  rewrite bool_decide_eq_false_2; [exact IH|]. intros Hn. by apply Hn.
Qed.

Lemma PrerequisiteRule_validate_returns (fr : Frame PrerequisiteRule) :
  returns PrerequisiteRule_validate fr
    (default (true, "")
       (head (omap (check_prereq (f_reg fr))
                   (prerequisite_checks (f_self fr) (f_reg fr))))).
Proof.
  unfold PrerequisiteRule_validate.
  eapply returns_bind; [apply returns_gets|].
  eapply returns_bind.
  - apply (returns_for_in
             (λ course, head (omap (check_prereq (f_reg fr))
                ((λ req, (course, req)) <$> default [] (prereq_map (f_self fr) !! course))))).
    intros course _.
    eapply returns_bind; [apply returns_gets|]. cbn beta zeta.
    rewrite omap_fmap.
    apply returns_for_in. intros req _.
    eapply returns_bind; [apply returns_gets|].
    unfold check_prereq. cbn [fst snd]. case_bool_decide; apply returns_ret.
  - unfold prerequisite_checks. rewrite head_omap_bind.
    destruct (head _) as [r|]; apply returns_ret.
Qed.

(** ** The schedule-conflict rule *)

Lemma bentrok_loop_returns courses occupied (fr : Frame JadwalBentrokRule) :
  ∃ o, returns (bentrok_loop courses occupied) fr o.
Proof.
  revert occupied. induction courses as [|course rest IH]; intros occupied.
  - eexists. apply returns_ret.
  - cbn [bentrok_loop].
    destruct (course_slot_map (f_self fr) !! course) as [slot|] eqn:Hslot.
    + destruct (decide (slot ∈ occupied)) as [Hin|Hout].
      * eexists. eapply returns_bind; [apply returns_gets|].
        rewrite Hslot, bool_decide_eq_true_2 by done. apply returns_ret.
      * destruct (IH ({[slot]} ∪ occupied)) as [o Ho]. exists o.
        eapply returns_bind; [apply returns_gets|].
        by rewrite Hslot, bool_decide_eq_false_2.
    + destruct (IH occupied) as [o Ho]. exists o.
      eapply returns_bind; [apply returns_gets|]. by rewrite Hslot.
Qed.

Lemma bentrok_loop_free courses occupied (fr : Frame JadwalBentrokRule) :
  NoDup (mapped_slots (f_self fr) courses) →
  Forall (λ slot, slot ∉ occupied) (mapped_slots (f_self fr) courses) →
  returns (bentrok_loop courses occupied) fr (true, "").
Proof.
  revert occupied. induction courses as [|course rest IH]; intros occupied Hnd Hfree.
  - apply returns_ret.
  - cbn [bentrok_loop]. eapply returns_bind; [apply returns_gets|].
    unfold mapped_slots in Hnd, Hfree. cbn [omap list_omap] in Hnd, Hfree.
    destruct (course_slot_map (f_self fr) !! course) as [slot|].
    + apply NoDup_cons in Hnd as [Hfresh Hnd].
      apply Forall_cons in Hfree as [Hout Hfree].
      rewrite (bool_decide_eq_false_2 _ Hout).
      apply IH; [done|].
      rewrite Forall_forall in Hfree |- *. intros x Hx. specialize (Hfree x Hx).
      intros [->%elem_of_singleton|Ho]%elem_of_union; [by apply Hfresh|by apply Hfree].
    + by apply IH.
Qed.

Lemma bentrok_loop_conflict pre course post slot occupied (fr : Frame JadwalBentrokRule) :
  NoDup (mapped_slots (f_self fr) pre) →
  Forall (λ slot, slot ∉ occupied) (mapped_slots (f_self fr) pre) →
  course_slot_map (f_self fr) !! course = Some slot →
  slot ∈ occupied ∨ slot ∈ mapped_slots (f_self fr) pre →
  returns (bentrok_loop (pre ++ course :: post) occupied) fr
          (false, bentrok_message course slot).
Proof.
  revert occupied. induction pre as [|c pre IH]; intros occupied Hnd Hfree Hslot Hin.
  - cbn [app bentrok_loop]. eapply returns_bind; [apply returns_gets|].
    rewrite Hslot. destruct Hin as [Hin|Hin]; [|by apply elem_of_nil in Hin].
    rewrite bool_decide_eq_true_2 by done. apply returns_ret.
  - cbn [app bentrok_loop]. eapply returns_bind; [apply returns_gets|].
    unfold mapped_slots in Hnd, Hfree, Hin. cbn [omap list_omap] in Hnd, Hfree, Hin.
    destruct (course_slot_map (f_self fr) !! c) as [s|].
    + apply NoDup_cons in Hnd as [Hfresh Hnd].
      apply Forall_cons in Hfree as [Hout Hfree].
      rewrite (bool_decide_eq_false_2 _ Hout).
      apply IH; [done| |done|].
      * rewrite Forall_forall in Hfree |- *. intros x Hx. specialize (Hfree x Hx).
        intros [->%elem_of_singleton|Ho]%elem_of_union; [by apply Hfresh|by apply Hfree].
      * destruct Hin as [Hin|Hin]; [left; apply elem_of_union; by right|].
        apply elem_of_cons in Hin as [->|Hin]; [|by right].
        left. apply elem_of_union. left. by apply elem_of_singleton.
    + by apply IH.
Qed.

Lemma JadwalBentrokRule_validate_loop (fr : Frame JadwalBentrokRule) o :
  returns (bentrok_loop (requested_courses (f_reg fr))
             (list_to_set (existing_schedule (f_self fr))
                ∪ list_to_set (schedule (f_reg fr)))) fr o →
  returns JadwalBentrokRule_validate fr o.
Proof.
  intros Hloop. unfold JadwalBentrokRule_validate.
  eapply returns_bind; [apply returns_gets|].
  eapply returns_bind; [apply returns_gets|]. cbn zeta.
  eapply returns_bind; [apply returns_gets|].
  by rewrite list_to_set_app_L.
Qed.

Lemma bind_gets {S A B} (f : S → A) (k : A → M S B) (s : S) :
  (gets f ≫= k) s = k (f s) s.
Proof. reflexivity. Qed.

(** The loop consults the rule object only. *)
Lemma bentrok_loop_reads_self courses occupied (fr fr' : Frame JadwalBentrokRule) :
  f_self fr = f_self fr' →
  (bentrok_loop courses occupied fr).1 = (bentrok_loop courses occupied fr').1.
Proof.
  intros Hself. revert occupied.
  induction courses as [|course rest IH]; intros occupied; [reflexivity|].
  cbn [bentrok_loop]. unfold get_self. rewrite !bind_gets, <- Hself.
  destruct (course_slot_map (f_self fr) !! course) as [slot|]; [|apply IH].
  case_bool_decide; [reflexivity|apply IH].
Qed.

Lemma bentrok_loop_skip pre course post occupied (fr : Frame JadwalBentrokRule) :
  course_slot_map (f_self fr) !! course = None →
  bentrok_loop (pre ++ course :: post) occupied fr
  = bentrok_loop (pre ++ post) occupied fr.
Proof.
  intros Hnone. revert occupied.
  induction pre as [|c pre IH]; intros occupied.
  - cbn [app bentrok_loop]. unfold get_self. by rewrite bind_gets, Hnone.
  - cbn [app bentrok_loop]. unfold get_self. rewrite !bind_gets.
    destruct (course_slot_map (f_self fr) !! c) as [slot|]; [|apply IH].
    case_bool_decide; [reflexivity|apply IH].
Qed.

Lemma JadwalBentrokRule_validate_unfold (fr : Frame JadwalBentrokRule) :
  JadwalBentrokRule_validate fr
  = bentrok_loop (requested_courses (f_reg fr))
      (list_to_set (existing_schedule (f_self fr) ++ schedule (f_reg fr))) fr.
Proof. reflexivity. Qed.

(** ** The coordinator's loop *)

Lemma passes_length rs reg rs' reg' lines :
  passes rs reg rs' reg' lines → length rs' = length rs.
Proof. induction 1; cbn; congruence. Qed.

Lemma insert_middle {A} (l1 l2 : list A) (x y : A) :
  <[length l1 := y]> (l1 ++ x :: l2) = l1 ++ y :: l2.
Proof.
  rewrite <- (Nat.add_0_r (length l1)). by rewrite insert_app_r.
Qed.

Lemma register_loop_cons i r rest w ok msg r' reg' :
  call_validate r (w_reg w) = (Ok (ok, msg), r', reg') →
  register_loop i (r :: rest) w
  = (if negb ok then mret (false, msg) else register_loop (S i) rest)
      (world (<[i := r']> (rules (w_self w))) reg'
             (w_stdout w ++ [log_line (rule_class_name r) ok msg])).
Proof.
  intros Hcall. cbn [register_loop].
  unfold mbind, M_bind, bind, invoke. rewrite Hcall. reflexivity.
Qed.

Lemma register_loop_passes pre reg pre' reg1 lines :
  passes pre reg pre' reg1 lines →
  ∀ done rest out,
    register_loop (length done) (pre ++ rest) (world (done ++ pre ++ rest) reg out)
    = register_loop (length done + length pre) rest
        (world (done ++ pre' ++ rest) reg1 (out ++ lines)).
Proof.
  induction 1 as [reg|r rs reg msg r' reg1 rs' reg2 lines Hcall _ IH];
    intros done rest out.
  - cbn [app length]. by rewrite Nat.add_0_r, app_nil_r.
  - cbn [app]. erewrite register_loop_cons by exact Hcall.
    cbn [negb world w_self rules w_stdout]. rewrite insert_middle.
    specialize (IH (done ++ [r']) rest (out ++ [log_line (rule_class_name r) true msg])).
    rewrite length_app in IH. cbn [length] in IH.
    rewrite <- !(assoc_L (++)) in IH. cbn [app] in IH.
    rewrite Nat.add_1_r in IH. rewrite IH. cbn [length].
    by rewrite Nat.add_succ_r.
Qed.

(** C1: [register] invokes the rules' [validate] methods in list order.
    If the rules of [pre] all pass and the next rule [r] fails with [msg],
    [register] returns exactly [(False, msg)]; it has logged one line per
    rule of [pre] and one for [r], in that order, and nothing for the rules
    of [post], which are left as they were and on whose behaviour the result
    does not depend: they are not invoked.  If all rules pass, it returns
    success with the generic message, having logged every rule in order. *)
Theorem register_fail_fast :
  (∀ pre r post reg out pre' reg1 lines msg r' reg2,
     passes pre reg pre' reg1 lines →
     call_validate r reg1 = (Ok (false, msg), r', reg2) →
     register (world (pre ++ r :: post) reg out)
     = (Ok (false, msg),
        world (pre' ++ r' :: post) reg2
              (out ++ lines ++ [log_line (rule_class_name r) false msg])))
  ∧ (∀ rs reg out rs' reg' lines,
       passes rs reg rs' reg' lines →
       register (world rs reg out)
       = (Ok (true, "Registrasi berhasil."), world rs' reg' (out ++ lines))).
Proof.
  split.
  - intros pre r post reg out pre' reg1 lines msg r' reg2 Hpre Hfail.
    unfold register, world at 1. rewrite bind_gets. cbn [w_self rules].
    pose proof (register_loop_passes _ _ _ _ _ Hpre [] (r :: post) out) as Hloop.
    cbn [app length] in Hloop. unfold world at 1 in Hloop. rewrite Hloop.
    erewrite register_loop_cons by exact Hfail.
    cbn [negb world w_self rules w_stdout].
    rewrite Nat.add_0_l, <- (passes_length _ _ _ _ _ Hpre), insert_middle.
    by rewrite <- (assoc_L (++)).
  - intros rs reg out rs' reg' lines Hpass.
    unfold register, world at 1. rewrite bind_gets. cbn [w_self rules].
    pose proof (register_loop_passes _ _ _ _ _ Hpass [] [] out) as Hloop.
    cbn [app length] in Hloop. rewrite !app_nil_r in Hloop.
    unfold world at 1 in Hloop. rewrite Hloop. reflexivity.
Qed.

Lemma register_fail_fast_witness :
  register (world [Rule SksLimitRule {| max_sks := 24 |};
                   Rule PrerequisiteRule cs201_needs_cs101;
                   Rule CountingRule {| calls := 0 |}] newcomer [])
  = (Ok (false, "Gagal: Prasyarat CS101 belum terpenuhi untuk CS201."),
     world [Rule SksLimitRule {| max_sks := 24 |};
            Rule PrerequisiteRule cs201_needs_cs101;
            Rule CountingRule {| calls := 0 |}] newcomer
           ["[SksLimitRule] -> OK";
            "[PrerequisiteRule] -> FAIL - Gagal: Prasyarat CS101 belum terpenuhi untuk CS201."]).
Proof.
  assert (Hpre : passes [Rule SksLimitRule {| max_sks := 24 |}] newcomer
                        [Rule SksLimitRule {| max_sks := 24 |}] newcomer
                        ["[SksLimitRule] -> OK"]).
  { exact (passes_cons (Rule SksLimitRule {| max_sks := 24 |}) [] newcomer ""
                       (Rule SksLimitRule {| max_sks := 24 |}) newcomer [] newcomer []
                       eq_refl (passes_nil newcomer)). }
  exact (proj1 register_fail_fast
           [Rule SksLimitRule {| max_sks := 24 |}]
           (Rule PrerequisiteRule cs201_needs_cs101)
           [Rule CountingRule {| calls := 0 |}]
           newcomer [] [Rule SksLimitRule {| max_sks := 24 |}] newcomer
           ["[SksLimitRule] -> OK"]
           "Gagal: Prasyarat CS101 belum terpenuhi untuk CS201."
           (Rule PrerequisiteRule cs201_needs_cs101) newcomer
           Hpre eq_refl).
Defined.

(** The probe does count when it is reached. *)
Example counting_rule_reached :
  register (world [Rule SksLimitRule {| max_sks := 24 |};
                   Rule CountingRule {| calls := 0 |}] newcomer [])
  = (Ok (true, "Registrasi berhasil."),
     world [Rule SksLimitRule {| max_sks := 24 |};
            Rule CountingRule {| calls := 1 |}] newcomer
           ["[SksLimitRule] -> OK"; "[CountingRule] -> OK"]).
Proof. reflexivity. Qed.

(** C10: a service constructed with an empty rule list returns success with
    the message "Registrasi berhasil." for every request whatsoever, and
    touches nothing. *)
Theorem register_no_rules (reg : StudentRegistration) (out : list string) :
  ∃ service,
    RegistrationService_init [] = Ok service
    ∧ register {| w_self := service; w_reg := reg; w_stdout := out |}
      = (Ok (true, "Registrasi berhasil."),
         {| w_self := service; w_reg := reg; w_stdout := out |}).
Proof. eexists. split; reflexivity. Qed.

(** A request that breaks the credit limit of 24, lacks the prerequisite of
    CS201 and asks for two courses in one slot still registers when no rule
    is configured. *)
Example register_no_rules_bad_request :
  let reg := {| student_id := "S004"; name := "Dedi";
                current_sks := 30; requested_sks := 30;
                completed_courses := [];
                requested_courses := ["CS201"; "CS101"];
                schedule := ["Mon-09"] |} in
  (register (world [] reg [])).1 = Ok (true, "Registrasi berhasil.").
Proof. reflexivity. Qed.

(** ** Claims about the single rules *)

(** [pretty] renders an integer the way [str] does in an f-string. *)
Example pretty_cap_examples :
  pretty 24 = "24" ∧ pretty 0 = "0" ∧ pretty (-5) = "-5" ∧ pretty 1000 = "1000".
Proof. repeat split; reflexivity. Qed.

(** C2: the credit-limit rule fails exactly when current + requested
    credit hours are strictly greater than the configured cap; the failure
    message is the fixed text with the cap's decimal rendering inside; a
    sum at or below the cap (equality included) passes with an empty
    message.  The call neither raises nor changes rule or request. *)
Theorem SksLimitRule_validate_spec (self : SksLimitRule) (reg : StudentRegistration) :
  let fr := {| f_self := self; f_reg := reg |} in
  ∃ ok msg,
    validate SksLimitRule fr = (Ok (ok, msg), fr)
    ∧ (ok = false ↔ current_sks reg + requested_sks reg > max_sks self)
    ∧ (ok = false →
       msg = sks_message (max_sks self)
       ∧ ∃ before after, msg = before +:+ pretty (max_sks self) +:+ after)
    ∧ ((current_sks reg + requested_sks reg ≤ max_sks self)%Z → ok = true ∧ msg = "").
Proof.
  intros fr. pose proof (SksLimitRule_validate_returns fr) as Hret.
  cbn [f_self f_reg fr] in Hret. case_bool_decide as Hsum.
  - exists false, (sks_message (max_sks self)).
    split_and!; [done|done|intros _; split; [done|by eexists _, _]|lia].
  - exists true, "". split_and!; [done|split; [done|lia]|done|done].
Qed.

(** C3: the prerequisite rule walks the requested courses in order and,
    per course, its prerequisites in order (none for a course without a map
    entry); it fails at the first prerequisite that is not among the
    completed courses, with a message naming that prerequisite and the
    course it blocks, and passes if there is no such prerequisite. *)
Theorem PrerequisiteRule_validate_spec (self : PrerequisiteRule) (reg : StudentRegistration) :
  let fr := {| f_self := self; f_reg := reg |} in
  (∀ pre course req post,
     prerequisite_checks self reg = pre ++ (course, req) :: post →
     Forall (satisfied reg) pre →
     req ∉ completed_courses reg →
     validate PrerequisiteRule fr
     = (Ok (false, "Gagal: Prasyarat " +:+ req +:+ " belum terpenuhi untuk "
                     +:+ course +:+ "."), fr))
  ∧ (Forall (satisfied reg) (prerequisite_checks self reg) →
     validate PrerequisiteRule fr = (Ok (true, ""), fr)).
Proof.
  intros fr. pose proof (PrerequisiteRule_validate_returns fr) as Hret.
  cbn [f_self f_reg fr] in Hret. split.
  - intros pre course req post Hsplit Hpre Hmiss.
    rewrite Hsplit, head_omap_app, (omap_check_satisfied _ _ Hpre) in Hret.
    cbn [head omap list_omap] in Hret. unfold check_prereq at 1 in Hret.
    cbn [fst snd] in Hret. rewrite (bool_decide_eq_true_2 _ Hmiss) in Hret.
    exact Hret.
  - intros Hall. rewrite (omap_check_satisfied _ _ Hall) in Hret. exact Hret.
Qed.

Lemma PrerequisiteRule_validate_spec_witness :
  validate PrerequisiteRule {| f_self := cs201_needs_cs101; f_reg := newcomer |}
  = (Ok (false, "Gagal: Prasyarat CS101 belum terpenuhi untuk CS201."),
     {| f_self := cs201_needs_cs101; f_reg := newcomer |})
  ∧ validate PrerequisiteRule {| f_self := cs201_needs_cs101; f_reg := demo_reg |}
    = (Ok (true, ""), {| f_self := cs201_needs_cs101; f_reg := demo_reg |}).
Proof.
  split.
  - apply (proj1 (PrerequisiteRule_validate_spec cs201_needs_cs101 newcomer)
             [] "CS201" "CS101" []).
    + reflexivity.
    + constructor.
    + apply not_elem_of_nil.
  - apply (proj2 (PrerequisiteRule_validate_spec cs201_needs_cs101 demo_reg)).
    repeat constructor.
Defined.

Lemma SksLimitRule_validate_spec_witness :
  (current_sks demo_reg + requested_sks demo_reg ≤ 24)%Z
  ∧ validate SksLimitRule {| f_self := {| max_sks := 24 |}; f_reg := demo_reg |}
    = (Ok (true, ""), {| f_self := {| max_sks := 24 |}; f_reg := demo_reg |}).
Proof.
  assert (Hle : (current_sks demo_reg + requested_sks demo_reg ≤ 24)%Z) by (cbn; lia).
  split; [exact Hle|].
  destruct (SksLimitRule_validate_spec {| max_sks := 24 |} demo_reg)
    as (ok & msg & Hrun & _ & _ & Hpass).
  destruct (Hpass Hle) as [-> ->]. exact Hrun.
Defined.

(** C4: the schedule-conflict rule starts from the occupied set
    [existing_schedule ∪ schedule] and walks the requested courses in
    order.  Courses without a slot entry are skipped: they add nothing to
    the occupied set and removing one from the request never changes the
    outcome.  While the slots met so far are pairwise distinct and outside
    the initial set, the walk goes on, adding each slot; the first course
    whose slot is in the initial set or was added by an earlier requested
    course fails, with a message naming that course and slot.  Hence of
    two requested courses with the same slot the second one fails. *)
Theorem JadwalBentrokRule_validate_spec (self : JadwalBentrokRule) (reg : StudentRegistration) :
  let fr := {| f_self := self; f_reg := reg |} in
  let occupied : gset string :=
    list_to_set (existing_schedule self) ∪ list_to_set (schedule reg) in
  (∀ pre course post slot,
     requested_courses reg = pre ++ course :: post →
     NoDup (mapped_slots self pre) →
     Forall (λ s, s ∉ occupied) (mapped_slots self pre) →
     course_slot_map self !! course = Some slot →
     slot ∈ occupied ∪ list_to_set (mapped_slots self pre) →
     validate JadwalBentrokRule fr
     = (Ok (false, "Gagal: Jadwal bentrok untuk " +:+ course +:+ " pada slot "
                     +:+ slot +:+ "."), fr))
  ∧ (NoDup (mapped_slots self (requested_courses reg)) →
     Forall (λ s, s ∉ occupied) (mapped_slots self (requested_courses reg)) →
     validate JadwalBentrokRule fr = (Ok (true, ""), fr))
  ∧ (∀ pre course post,
       requested_courses reg = pre ++ course :: post →
       course_slot_map self !! course = None →
       mapped_slots self (requested_courses reg) = mapped_slots self (pre ++ post)
       ∧ (validate JadwalBentrokRule fr).1
         = (validate JadwalBentrokRule
              {| f_self := self; f_reg := with_requested reg (pre ++ post) |}).1)
  ∧ (∀ before first between second post slot,
       requested_courses reg = before ++ first :: between ++ second :: post →
       course_slot_map self !! first = Some slot →
       course_slot_map self !! second = Some slot →
       NoDup (mapped_slots self (before ++ first :: between)) →
       Forall (λ s, s ∉ occupied) (mapped_slots self (before ++ first :: between)) →
       validate JadwalBentrokRule fr
       = (Ok (false, bentrok_message second slot), fr)).
Proof.
  intros fr occupied.
  assert (Hfail : ∀ pre course post slot,
     requested_courses reg = pre ++ course :: post →
     NoDup (mapped_slots self pre) →
     Forall (λ s, s ∉ occupied) (mapped_slots self pre) →
     course_slot_map self !! course = Some slot →
     slot ∈ occupied ∪ list_to_set (mapped_slots self pre) →
     validate JadwalBentrokRule fr = (Ok (false, bentrok_message course slot), fr)).
  { intros pre course post slot Hsplit Hnd Hfree Hslot Hin.
    apply JadwalBentrokRule_validate_loop. cbn [fr f_self f_reg]. rewrite Hsplit.
    apply bentrok_loop_conflict; [done..|].
    apply elem_of_union in Hin as [Hin|Hin]; [by left|right].
    by apply elem_of_list_to_set in Hin. }
  split_and!.
  - exact Hfail.
  - intros Hnd Hfree. apply JadwalBentrokRule_validate_loop.
    by apply bentrok_loop_free.
  - intros pre course post Hsplit Hnone. split.
    + rewrite Hsplit. unfold mapped_slots. rewrite !omap_app.
      cbn [omap list_omap]. by rewrite Hnone.
    + change (validate JadwalBentrokRule) with JadwalBentrokRule_validate.
      rewrite !JadwalBentrokRule_validate_unfold. cbn [fr f_self f_reg with_requested
        requested_courses schedule]. rewrite Hsplit.
      rewrite bentrok_loop_skip by done. by apply bentrok_loop_reads_self.
  - intros before first between second post slot Hsplit Hfirst Hsecond Hnd Hfree.
    apply (Hfail (before ++ first :: between) second post slot); try done.
    + by rewrite Hsplit, <- (assoc_L (++)).
    + apply elem_of_union. right. apply elem_of_list_to_set.
      unfold mapped_slots. rewrite omap_app. apply elem_of_app. right.
      cbn [omap list_omap]. rewrite Hfirst. left.
Qed.

Lemma JadwalBentrokRule_validate_spec_witness :
  validate JadwalBentrokRule {| f_self := monday_taken; f_reg := demo_reg |}
  = (Ok (false, "Gagal: Jadwal bentrok untuk CS201 pada slot Mon-09."),
     {| f_self := monday_taken; f_reg := demo_reg |})
  ∧ validate JadwalBentrokRule
      {| f_self := nothing_taken;
         f_reg := with_requested newcomer ["CS101"; "XX999"; "CS201"] |}
    = (Ok (false, "Gagal: Jadwal bentrok untuk CS201 pada slot Mon-09."),
       {| f_self := nothing_taken;
          f_reg := with_requested newcomer ["CS101"; "XX999"; "CS201"] |})
  ∧ validate JadwalBentrokRule
      {| f_self := nothing_taken;
         f_reg := with_requested newcomer ["CS101"; "XX999"; "MA101"] |}
    = (Ok (true, ""),
       {| f_self := nothing_taken;
          f_reg := with_requested newcomer ["CS101"; "XX999"; "MA101"] |}).
Proof.
  split_and!.
  - apply (proj1 (JadwalBentrokRule_validate_spec monday_taken demo_reg)
             [] "CS201" ["MA101"] "Mon-09"); [reflexivity|constructor|constructor|reflexivity|].
    vm_compute. reflexivity.
  - apply (proj2 (proj2 (proj2 (JadwalBentrokRule_validate_spec nothing_taken
             (with_requested newcomer ["CS101"; "XX999"; "CS201"]))))
             [] "CS101" ["XX999"] "CS201" [] "Mon-09");
      [reflexivity|reflexivity|reflexivity|..].
    + apply NoDup_singleton.
    + repeat constructor. apply not_elem_of_empty.
  - apply (proj1 (proj2 (JadwalBentrokRule_validate_spec nothing_taken
             (with_requested newcomer ["CS101"; "XX999"; "MA101"])))).
    + apply (bool_decide_unpack _). vm_compute. reflexivity.
    + apply (bool_decide_unpack _). vm_compute. reflexivity.
Defined.

(** ** The rules of the repository never raise and never write *)

Lemma JadwalBentrokRule_validate_returns (fr : Frame JadwalBentrokRule) :
  ∃ o, returns JadwalBentrokRule_validate fr o.
Proof.
  destruct (bentrok_loop_returns (requested_courses (f_reg fr))
              (list_to_set (existing_schedule (f_self fr))
                 ∪ list_to_set (schedule (f_reg fr))) fr) as [o Ho].
  exists o. by apply JadwalBentrokRule_validate_loop.
Qed.

Lemma call_validate_returns T `{IValidationRule T} (self : T) reg o :
  returns (validate T) {| f_self := self; f_reg := reg |} o →
  call_validate (Rule T self) reg = (Ok o, Rule T self, reg).
Proof. unfold returns. cbn [call_validate]. by intros ->. Qed.

Lemma repo_rule_call r reg :
  repo_rule r → ∃ o, call_validate r reg = (Ok o, r, reg).
Proof.
  destruct 1 as [self|self|self].
  - eexists. apply call_validate_returns, SksLimitRule_validate_returns.
  - eexists. apply call_validate_returns, PrerequisiteRule_validate_returns.
  - destruct (JadwalBentrokRule_validate_returns {| f_self := self; f_reg := reg |})
      as [o Ho].
    exists o. by apply call_validate_returns.
Qed.

Lemma register_loop_repo todo reg :
  Forall repo_rule todo →
  ∃ o lines,
    (∀ done out,
       register_loop (length done) todo (world (done ++ todo) reg out)
       = (Ok o, world (done ++ todo) reg (out ++ lines)))
    ∧ (o.1 = true → o = (true, success_message))
    ∧ (o.1 = false →
       ∃ pre r post,
         todo = pre ++ r :: post
         ∧ Forall (passes_quietly reg) pre
         ∧ call_validate r reg = (Ok o, r, reg)).
Proof.
  induction 1 as [|r rest Hr _ IH].
  - exists (true, success_message), []. split_and!; [|done|done].
    intros done out. by rewrite !app_nil_r.
  - destruct (repo_rule_call r reg Hr) as [[[|] msg] Hcall].
    + destruct IH as (o & lines & Hrun & Hok & Hfail).
      exists o, (log_line (rule_class_name r) true msg :: lines). split_and!.
      * intros done out. erewrite register_loop_cons by exact Hcall.
        cbn [negb world w_self rules w_stdout]. rewrite insert_middle.
        specialize (Hrun (done ++ [r]) (out ++ [log_line (rule_class_name r) true msg])).
        rewrite length_app, Nat.add_1_r, <- !(assoc_L (++)) in Hrun.
        exact Hrun.
      * exact Hok.
      * intros Ho. destruct (Hfail Ho) as (pre & r0 & post & -> & Hpre & Hr0).
        exists (r :: pre), r0, post. split_and!; [done| |done].
        constructor; [by exists msg|done].
    + exists (false, msg), [log_line (rule_class_name r) false msg]. split_and!.
      * intros done out. erewrite register_loop_cons by exact Hcall.
        cbn [negb world w_self rules w_stdout]. by rewrite insert_middle.
      * done.
      * intros _. exists [], r, rest. split_and!; [done|constructor|done].
Qed.

Lemma register_repo rs reg :
  Forall repo_rule rs →
  ∃ o lines,
    (∀ out, register (world rs reg out) = (Ok o, world rs reg (out ++ lines)))
    ∧ (o.1 = true → o = (true, success_message))
    ∧ (o.1 = false →
       ∃ pre r post,
         rs = pre ++ r :: post
         ∧ Forall (passes_quietly reg) pre
         ∧ call_validate r reg = (Ok o, r, reg)).
Proof.
  intros Hrs. destruct (register_loop_repo rs reg Hrs) as (o & lines & Hrun & Hrest).
  exists o, lines. split; [|exact Hrest].
  intros out. exact (Hrun [] out).
Qed.

Lemma unsatisfied_check_returned reg (checks : list (string * string)) :
  ¬ Forall (satisfied reg) checks →
  ∃ check,
    check ∈ checks ∧ ¬ satisfied reg check
    ∧ head (omap (check_prereq reg) checks)
      = Some (false, prereq_message check.2 check.1).
Proof.
  induction checks as [|c checks IH]; intros Hnot.
  - destruct Hnot. constructor.
  - cbn [omap list_omap]. unfold check_prereq at 1.
    destruct (decide (c.2 ∈ completed_courses reg)) as [Hin|Hout].
    + rewrite bool_decide_eq_false_2 by (intros Hn; by apply Hn).
      destruct IH as (check & Hcheck & Hmiss & Hhead).
      { intros Hall. apply Hnot. by constructor. }
      exists check. split_and!; [by right|done|done].
    + rewrite (bool_decide_eq_true_2 _ Hout).
      exists c. split_and!; [by left|done|done].
Qed.

Lemma elem_of_prerequisite_checks self reg course req :
  (course, req) ∈ prerequisite_checks self reg
  ↔ course ∈ requested_courses reg
    ∧ req ∈ default [] (prereq_map self !! course).
Proof.
  unfold prerequisite_checks. rewrite list_elem_of_bind. split.
  - intros (c & Hin & Hc). apply list_elem_of_fmap in Hin as (r & [= -> ->] & Hr).
    done.
  - intros [Hc Hr]. exists course. split; [|done].
    apply list_elem_of_fmap. by exists req.
Qed.

(** The walk succeeds exactly when the slots it meets are pairwise
    distinct and none of them is occupied at the start. *)
Lemma bentrok_loop_outcome courses occupied (fr : Frame JadwalBentrokRule) :
  ∃ o, returns (bentrok_loop courses occupied) fr o
       ∧ (o.1 = true
          ↔ NoDup (mapped_slots (f_self fr) courses)
            ∧ Forall (λ s, s ∉ occupied) (mapped_slots (f_self fr) courses)).
Proof.
  destruct (bentrok_loop_returns courses occupied fr) as [[[|] msg] Ho].
  - exists (true, msg). split; [done|]. split; [intros _|done].
    revert occupied Ho. induction courses as [|course rest IH]; intros occupied Ho.
    + split; constructor.
    + unfold returns in Ho. cbn [bentrok_loop] in Ho. unfold get_self in Ho.
      rewrite bind_gets in Ho. unfold mapped_slots. cbn [omap list_omap].
      destruct (course_slot_map (f_self fr) !! course) as [slot|]; [|by apply IH].
      case_bool_decide as Hin; [discriminate Ho|].
      destruct (IH _ Ho) as [Hnd Hfree]. rewrite Forall_forall in Hfree.
      split; constructor.
      * intros Hdup. apply (Hfree slot Hdup), elem_of_union. left.
        by apply elem_of_singleton.
      * exact Hnd.
      * exact Hin.
      * apply Forall_forall. intros s Hs Hocc. apply (Hfree s Hs), elem_of_union.
        by right.
  - exists (false, msg). split; [done|]. split; [done|]. intros [Hnd Hfree].
    pose proof (bentrok_loop_free courses occupied fr Hnd Hfree) as Hok.
    pose proof (returns_inj _ _ _ _ Ho Hok). discriminate.
Qed.

(** ** Construction-time configuration *)

(** C5, as the specification states it, fails: the constructor of the
    credit-limit rule stores a negative cap without raising, and the rule
    built from it reports a validation failure for an empty request. *)
Lemma SksLimitRule_init_accepts_negative_cap :
  SksLimitRule_init (Some (-1)) = Ok {| max_sks := -1 |}
  ∧ (∀ e, SksLimitRule_init (Some (-1)) ≠ Raise e)
  ∧ validate SksLimitRule {| f_self := {| max_sks := -1 |}; f_reg := newcomer |}
    = (Ok (false, "Gagal: Melebihi batas SKS (max -1)."),
       {| f_self := {| max_sks := -1 |}; f_reg := newcomer |}).
Proof. split_and!; [reflexivity|discriminate|reflexivity]. Qed.

(** C5, amended: the constructor of the credit-limit rule accepts every
    integer cap and never raises (the cap is 24 when the argument is
    omitted); with a negative cap, every request whose credit hours sum to
    a non-negative number gets a validation failure naming that cap. *)
Theorem SksLimitRule_init_accepts_any_cap :
  SksLimitRule_init None = Ok {| max_sks := 24 |}
  ∧ ∀ cap : Z,
      SksLimitRule_init (Some cap) = Ok {| max_sks := cap |}
      ∧ (cap < 0 →
         ∀ reg, (0 ≤ current_sks reg + requested_sks reg)%Z →
           validate SksLimitRule {| f_self := {| max_sks := cap |}; f_reg := reg |}
           = (Ok (false, sks_message cap),
              {| f_self := {| max_sks := cap |}; f_reg := reg |})).
Proof.
  split; [reflexivity|]. intros cap. split; [reflexivity|].
  intros Hneg reg Hsum.
  pose proof (SksLimitRule_validate_returns {| f_self := {| max_sks := cap |}; f_reg := reg |})
    as Hret.
  cbn [f_self f_reg max_sks] in Hret. rewrite bool_decide_eq_true_2 in Hret by lia.
  exact Hret.
Qed.

Lemma SksLimitRule_init_accepts_any_cap_witness :
  (-1 < 0)%Z
  ∧ (0 ≤ current_sks newcomer + requested_sks newcomer)%Z
  ∧ validate SksLimitRule {| f_self := {| max_sks := -1 |}; f_reg := newcomer |}
    = (Ok (false, sks_message (-1)),
       {| f_self := {| max_sks := -1 |}; f_reg := newcomer |}).
Proof.
  assert (Hneg : (-1 < 0)%Z) by lia.
  assert (Hsum : (0 ≤ current_sks newcomer + requested_sks newcomer)%Z) by (cbn; lia).
  split_and!; [exact Hneg|exact Hsum|].
  exact (proj2 (proj2 SksLimitRule_init_accepts_any_cap (-1)) Hneg newcomer Hsum).
Defined.

(** ** Frame and totality *)

(** C7: for each of the three rules and every request, [validate] leaves
    the request as it found it: the request after the call equals the
    request before it, field by field ([student_id], [name], the credit
    hours, [completed_courses], [requested_courses], [schedule]). *)
Theorem validate_leaves_request :
  (∀ fr : Frame SksLimitRule, f_reg (validate SksLimitRule fr).2 = f_reg fr)
  ∧ (∀ fr : Frame PrerequisiteRule, f_reg (validate PrerequisiteRule fr).2 = f_reg fr)
  ∧ (∀ fr : Frame JadwalBentrokRule, f_reg (validate JadwalBentrokRule fr).2 = f_reg fr).
Proof.
  split_and!; intros fr.
  - exact (f_equal f_reg (returns_store _ _ _ (SksLimitRule_validate_returns fr))).
  - exact (f_equal f_reg (returns_store _ _ _ (PrerequisiteRule_validate_returns fr))).
  - destruct (JadwalBentrokRule_validate_returns fr) as [o Ho].
    exact (f_equal f_reg (returns_store _ _ _ Ho)).
Qed.

(** ** Statelessness of the coordinator *)

(** C9: over rules of the repository's classes [register] is a function
    of the rule configurations and the request alone: whatever was written
    before, two calls on equal rules and equal requests return the same
    outcome (and log the same lines); a call leaves the rule list, every
    rule and the request unchanged, so that a second call made right after
    the first returns the same outcome again. *)
Theorem register_stateless (rs : list rule) (reg : StudentRegistration)
    (out1 out2 : list string) :
  Forall repo_rule rs →
  ∃ o lines,
    register (world rs reg out1) = (Ok o, world rs reg (out1 ++ lines))
    ∧ register (world rs reg out2) = (Ok o, world rs reg (out2 ++ lines))
    ∧ (first ← register; second ← register; mret (first, second)) (world rs reg out1)
      = (Ok (o, o), world rs reg (out1 ++ lines ++ lines)).
Proof.
  intros Hrs. destruct (register_repo rs reg Hrs) as (o & lines & Hrun & _).
  exists o, lines. split_and!; [apply Hrun|apply Hrun|].
  unfold mbind, M_bind, bind. rewrite !Hrun, (assoc_L (++)). reflexivity.
Qed.

Lemma register_stateless_witness :
  ∃ o lines,
    register (world [Rule SksLimitRule {| max_sks := 24 |};
                     Rule PrerequisiteRule cs201_needs_cs101;
                     Rule JadwalBentrokRule monday_taken] demo_reg [])
    = (Ok o, world [Rule SksLimitRule {| max_sks := 24 |};
                    Rule PrerequisiteRule cs201_needs_cs101;
                    Rule JadwalBentrokRule monday_taken] demo_reg lines)
    ∧ register (world [Rule SksLimitRule {| max_sks := 24 |};
                       Rule PrerequisiteRule cs201_needs_cs101;
                       Rule JadwalBentrokRule monday_taken] demo_reg ["earlier output"])
      = (Ok o, world [Rule SksLimitRule {| max_sks := 24 |};
                      Rule PrerequisiteRule cs201_needs_cs101;
                      Rule JadwalBentrokRule monday_taken] demo_reg
                     ("earlier output" :: lines)).
Proof.
  assert (Hrepo : Forall repo_rule
            [Rule SksLimitRule {| max_sks := 24 |};
             Rule PrerequisiteRule cs201_needs_cs101;
             Rule JadwalBentrokRule monday_taken]) by repeat constructor.
  destruct (register_stateless _ demo_reg [] ["earlier output"] Hrepo)
    as (o & lines & Hfirst & Hsecond & _).
  exists o, lines. split; [exact Hfirst|exact Hsecond].
Defined.

(** A rule of a client's class may keep state, and then calls are not
    independent: the counter of the probe differs after each call. *)
Example counting_rule_is_stateful :
  (register (world [Rule CountingRule {| calls := 0 |}] newcomer [])).2
  = world [Rule CountingRule {| calls := 1 |}] newcomer ["[CountingRule] -> OK"].
Proof. reflexivity. Qed.

(** ** End to end *)

Example demo_rules_built :
  demo_rules false = Ok [Rule SksLimitRule {| max_sks := 24 |};
                         Rule PrerequisiteRule cs201_needs_cs101]
  ∧ demo_rules true = Ok [Rule SksLimitRule {| max_sks := 24 |};
                          Rule PrerequisiteRule cs201_needs_cs101;
                          Rule JadwalBentrokRule monday_taken].
Proof. split; reflexivity. Qed.

(** C8: with the rules of the demonstration (cap 24, CS201 requires CS101)
    a request with 18 current and 6 requested credit hours, CS101 among the
    completed courses and CS201, MA101 requested registers successfully;
    with the schedule-conflict rule appended (Mon-09 already taken, default
    slot table) the same request fails with the conflict of CS201 at slot
    Mon-09, after the first two rules have passed. *)
Theorem end_to_end_scenarios (reg : StudentRegistration) (out : list string) :
  current_sks reg = 18 →
  requested_sks reg = 6 →
  "CS101" ∈ completed_courses reg →
  requested_courses reg = ["CS201"; "MA101"] →
  (∃ rs, demo_rules false = Ok rs
         ∧ register (world rs reg out)
           = (Ok (true, "Registrasi berhasil."),
              world rs reg (out ++ ["[SksLimitRule] -> OK"; "[PrerequisiteRule] -> OK"])))
  ∧ (∃ rs, demo_rules true = Ok rs
           ∧ register (world rs reg out)
             = (Ok (false, "Gagal: Jadwal bentrok untuk CS201 pada slot Mon-09."),
                world rs reg
                  (out ++ ["[SksLimitRule] -> OK"; "[PrerequisiteRule] -> OK";
                           "[JadwalBentrokRule] -> FAIL - Gagal: Jadwal bentrok untuk CS201 pada slot Mon-09."]))).
Proof.
  intros Hcur Hreq Hdone Hcourses.
  assert (Hsks : call_validate (Rule SksLimitRule {| max_sks := 24 |}) reg
                 = (Ok (true, ""), Rule SksLimitRule {| max_sks := 24 |}, reg)).
  { apply call_validate_returns.
    pose proof (SksLimitRule_validate_returns
                  {| f_self := {| max_sks := 24 |}; f_reg := reg |}) as Hret.
    cbn [f_self f_reg max_sks] in Hret.
    rewrite bool_decide_eq_false_2 in Hret by (rewrite Hcur, Hreq; lia).
    exact Hret. }
  assert (Hpre : call_validate (Rule PrerequisiteRule cs201_needs_cs101) reg
                 = (Ok (true, ""), Rule PrerequisiteRule cs201_needs_cs101, reg)).
  { apply call_validate_returns.
    pose proof (PrerequisiteRule_validate_returns
                  {| f_self := cs201_needs_cs101; f_reg := reg |}) as Hret.
    cbn [f_self f_reg] in Hret. rewrite omap_check_satisfied in Hret; [exact Hret|].
    unfold prerequisite_checks. rewrite Hcourses.
    change (Forall (satisfied reg) [("CS201", "CS101")]).
    repeat constructor. exact Hdone. }
  assert (Hjad : call_validate (Rule JadwalBentrokRule monday_taken) reg
                 = (Ok (false, "Gagal: Jadwal bentrok untuk CS201 pada slot Mon-09."),
                    Rule JadwalBentrokRule monday_taken, reg)).
  { apply call_validate_returns.
    apply (JadwalBentrokRule_validate_loop {| f_self := monday_taken; f_reg := reg |}).
    cbn [f_self f_reg]. rewrite Hcourses.
    apply (bentrok_loop_conflict [] "CS201" ["MA101"] "Mon-09");
      [constructor|constructor|reflexivity|].
    left. apply elem_of_union. left. apply elem_of_list_to_set. left. }
  assert (Hpasses : passes [Rule SksLimitRule {| max_sks := 24 |};
                            Rule PrerequisiteRule cs201_needs_cs101] reg
                           [Rule SksLimitRule {| max_sks := 24 |};
                            Rule PrerequisiteRule cs201_needs_cs101] reg
                           ["[SksLimitRule] -> OK"; "[PrerequisiteRule] -> OK"]).
  { exact (passes_cons _ _ _ _ _ _ _ _ _ Hsks
             (passes_cons _ _ _ _ _ _ _ _ _ Hpre (passes_nil reg))). }
  split.
  - exists [Rule SksLimitRule {| max_sks := 24 |};
            Rule PrerequisiteRule cs201_needs_cs101].
    split; [reflexivity|].
    exact (register_loop_passes _ _ _ _ _ Hpasses [] [] out).
  - exists [Rule SksLimitRule {| max_sks := 24 |};
            Rule PrerequisiteRule cs201_needs_cs101;
            Rule JadwalBentrokRule monday_taken].
    split; [reflexivity|].
    pose proof (register_loop_passes _ _ _ _ _ Hpasses []
                  [Rule JadwalBentrokRule monday_taken] out) as Hloop.
    cbn [app length] in Hloop. etrans; [exact Hloop|].
    erewrite register_loop_cons by exact Hjad.
    cbn [negb world w_self rules w_stdout]. rewrite <- (assoc_L (++)). reflexivity.
Qed.

Lemma end_to_end_scenarios_witness :
  (register (world [Rule SksLimitRule {| max_sks := 24 |};
                    Rule PrerequisiteRule cs201_needs_cs101] demo_reg [])).1
  = Ok (true, "Registrasi berhasil.")
  ∧ (register (world [Rule SksLimitRule {| max_sks := 24 |};
                      Rule PrerequisiteRule cs201_needs_cs101;
                      Rule JadwalBentrokRule monday_taken] demo_reg [])).1
    = Ok (false, "Gagal: Jadwal bentrok untuk CS201 pada slot Mon-09.").
Proof.
  assert (Hdone : "CS101" ∈ completed_courses demo_reg) by left.
  destruct (end_to_end_scenarios demo_reg [] eq_refl eq_refl Hdone eq_refl)
    as [(rs2 & Hrs2 & Hrun2) (rs3 & Hrs3 & Hrun3)].
  injection Hrs2 as <-. injection Hrs3 as <-.
  split; [exact (f_equal fst Hrun2)|exact (f_equal fst Hrun3)].
Defined.

(** What the demonstration prints, without and with the third rule. *)
Example demo_after_refactor_output :
  demo_after_refactor false []
  = (Ok tt,
     [String (Ascii.ascii_of_nat 10)
        "=== Demo AFTER refactor (RegistrationService with Rules) ===";
      "[SksLimitRule] -> OK";
      "[PrerequisiteRule] -> OK";
      "Hasil RegistrationService: True Registrasi berhasil.";
      ""])
  ∧ demo_after_refactor true []
    = (Ok tt,
       [String (Ascii.ascii_of_nat 10)
          "=== Demo AFTER refactor (RegistrationService with Rules) ===";
        "[SksLimitRule] -> OK";
        "[PrerequisiteRule] -> OK";
        "[JadwalBentrokRule] -> FAIL - Gagal: Jadwal bentrok untuk CS201 pada slot Mon-09.";
        "Hasil RegistrationService: False Gagal: Jadwal bentrok untuk CS201 pada slot Mon-09.";
        ""]).
Proof. split; vm_compute; reflexivity. Qed.

(** * Further properties of the code *)

(** ** The validator before the refactoring *)

Lemma echo_then {A} (line : string) (k : M Console A) (c : Console) :
  (echo line;; k) c = k {| c_reg := c_reg c; c_stdout := c_stdout c ++ [line] |}.
Proof. reflexivity. Qed.

Lemma legacy_schedule_loop (slots : list string) (c : Console) :
  for_in slots (λ slot,
    reg ← gets c_reg;
    if bool_decide (slot ∈ schedule reg) then mret None else mret None) c
  = (Ok (None : option bool), c).
Proof.
  induction slots as [|slot slots IH]; [reflexivity|].
  cbn [for_in]. unfold bind at 1. rewrite bind_gets.
  by case_bool_decide.
Qed.

Lemma legacy_prereq_loop (courses : list string) (c : Console) :
  for_in courses (λ course,
    reg ← gets c_reg;
    if bool_decide (course = "CS201")
       && bool_decide ("CS101" ∉ completed_courses reg)
    then echo legacy_prereq_message;; mret (Some false)
    else mret None) c
  = if bool_decide ("CS201" ∈ courses ∧ "CS101" ∉ completed_courses (c_reg c))
    then (Ok (Some false),
          {| c_reg := c_reg c; c_stdout := c_stdout c ++ [legacy_prereq_message] |})
    else (Ok None, c).
Proof.
  induction courses as [|course courses IH].
  - cbn [for_in]. rewrite bool_decide_eq_false_2; [reflexivity|].
    intros [Hin _]. by apply elem_of_nil in Hin.
  - cbn [for_in]. unfold bind at 1. rewrite bind_gets.
    destruct (decide (course = "CS201")) as [->|Hne];
      [destruct (decide ("CS101" ∈ completed_courses (c_reg c))) as [Hdone|Hmiss]|].
    + rewrite (bool_decide_eq_false_2 ("CS101" ∉ _)) by (intros Hn; by apply Hn).
      rewrite andb_false_r. cbn. rewrite IH.
      rewrite !(bool_decide_eq_false_2 (_ ∧ _)); [reflexivity|..];
        intros [_ Hn]; by apply Hn.
    + rewrite (bool_decide_eq_true_2 ("CS101" ∉ _)) by done.
      rewrite (bool_decide_eq_true_2 (_ = _)) by done.
      rewrite (bool_decide_eq_true_2 (_ ∧ _)) by (split; [left|done]).
      reflexivity.
    + rewrite (bool_decide_eq_false_2 (course = _)) by done.
      cbn. rewrite IH.
      rewrite (bool_decide_ext ("CS201" ∈ courses ∧ "CS101" ∉ completed_courses (c_reg c))
                 ("CS201" ∈ course :: courses ∧ "CS101" ∉ completed_courses (c_reg c)));
        [reflexivity|].
      split; intros [Hin Hmiss]; (split; [|done]).
      * by right.
      * apply elem_of_cons in Hin as [Heq|Hin]; [by subst|done].
Qed.

(** The run of the old validator, branch by branch. *)
Lemma ValidatorManager_validate_run (reg : StudentRegistration) (out : list string) :
  ValidatorManager_validate {| c_reg := reg; c_stdout := out |}
  = if bool_decide (current_sks reg + requested_sks reg > 24)
    then (Ok false,
          {| c_reg := reg; c_stdout := out ++ [legacy_start; legacy_sks_message] |})
    else if bool_decide ("CS201" ∈ requested_courses reg
                         ∧ "CS101" ∉ completed_courses reg)
    then (Ok false,
          {| c_reg := reg; c_stdout := out ++ [legacy_start; legacy_prereq_message] |})
    else (Ok true,
          {| c_reg := reg; c_stdout := out ++ [legacy_start; legacy_done] |}).
Proof.
  unfold ValidatorManager_validate.
  rewrite echo_then, bind_gets. cbn [c_reg c_stdout].
  case_bool_decide as Hsum.
  - rewrite echo_then. cbn [c_reg c_stdout]. by rewrite <- (assoc_L (++)).
  - rewrite bind_gets. cbn [c_reg].
    unfold mbind at 1, M_bind at 1, bind at 1. rewrite legacy_prereq_loop.
    cbn [c_reg c_stdout]. case_bool_decide as Hpre.
    + by rewrite <- (assoc_L (++)).
    + rewrite bind_gets. cbn [c_reg].
      unfold mbind at 1, M_bind at 1, bind at 1. rewrite legacy_schedule_loop.
      rewrite echo_then. cbn [c_reg c_stdout]. by rewrite <- (assoc_L (++)).
Qed.

(** X1: what [ValidatorManager.validate] does on every request.  It never
    raises and never changes the request; it prints its opening line and
    then exactly one more line.  It returns [False] when the credit hours
    sum to more than 24 (checked first), else [False] when CS201 is
    requested and CS101 is not completed, else [True]; the [schedule] is
    walked but has no influence. *)
Theorem ValidatorManager_validate_spec (reg : StudentRegistration) (out : list string) :
  ∃ ok line,
    ValidatorManager_validate {| c_reg := reg; c_stdout := out |}
    = (Ok ok, {| c_reg := reg; c_stdout := out ++ [legacy_start; line] |})
    ∧ (ok = true
       ↔ (current_sks reg + requested_sks reg ≤ 24)%Z
         ∧ ("CS201" ∈ requested_courses reg → "CS101" ∈ completed_courses reg))
    ∧ (ok = true → line = "Semua pengecekan ValidatorManager terlewati.")
    ∧ (current_sks reg + requested_sks reg > 24 →
       line = "Gagal: Melebihi batas SKS (max 24).")
    ∧ (ok = false → (current_sks reg + requested_sks reg ≤ 24)%Z →
       line = "Gagal: Prasyarat CS101 belum terpenuhi untuk CS201.").
Proof.
  pose proof (ValidatorManager_validate_run reg out) as Hrun.
  case_bool_decide as Hsum; [|case_bool_decide as Hpre].
  - exists false, legacy_sks_message.
    split_and!; [exact Hrun| |done|done|intros _ Hle; lia].
    split; [done|]. intros [Hle _]. lia.
  - exists false, legacy_prereq_message. destruct Hpre as [Hreq Hmiss].
    split_and!; [exact Hrun| |done|intros Hover; lia|done].
    split; [done|]. intros [_ Hdone]. destruct Hmiss. by apply Hdone.
  - exists true, legacy_done.
    split_and!; [exact Hrun| |done|intros Hover; lia|done].
    split; [intros _|done]. split; [lia|]. intros Hreq.
    destruct (decide ("CS101" ∈ completed_courses reg)) as [|Hmiss]; [done|].
    destruct Hpre. by split.
Qed.

(** The prerequisite rule with the single entry CS201 -> [CS101] checks
    what the old validator checked. *)
Lemma cs201_rule_outcome (reg : StudentRegistration) :
  default (true, "")
    (head (omap (check_prereq reg) (prerequisite_checks cs201_needs_cs101 reg)))
  = if bool_decide ("CS201" ∈ requested_courses reg ∧ "CS101" ∉ completed_courses reg)
    then (false, legacy_prereq_message)
    else (true, "").
Proof.
  assert (Hone : ∀ course req,
            (course, req) ∈ prerequisite_checks cs201_needs_cs101 reg
            ↔ course = "CS201" ∧ req = "CS101" ∧ "CS201" ∈ requested_courses reg).
  { intros course req. rewrite elem_of_prerequisite_checks.
    unfold cs201_needs_cs101. cbn [prereq_map]. rewrite lookup_singleton.
    case_decide as Heq.
    - subst course. cbn. rewrite list_elem_of_singleton. intuition congruence.
    - cbn. rewrite elem_of_nil. intuition congruence. }
  case_bool_decide as Hcond.
  - destruct Hcond as [Hreq Hmiss].
    destruct (unsatisfied_check_returned reg (prerequisite_checks cs201_needs_cs101 reg))
      as ([course req] & Hin & _ & ->).
    { rewrite Forall_forall. intros Hall. apply Hmiss.
      apply (Hall ("CS201", "CS101")). by apply Hone. }
    apply Hone in Hin as (-> & -> & _). reflexivity.
  - rewrite omap_check_satisfied; [reflexivity|].
    apply Forall_forall. intros [course req] Hin.
    apply Hone in Hin as (-> & -> & Hreq). unfold satisfied. cbn [snd].
    destruct (decide ("CS101" ∈ completed_courses reg)); [done|].
    destruct Hcond. by split.
Qed.

Lemma register_run rs reg out :
  register (world rs reg out) = register_loop 0 rs (world rs reg out).
Proof. reflexivity. Qed.

(** X2: the refactoring preserves the old behaviour.  On every request the
    service with the two rules of the demonstration (cap 24, CS201 requires
    CS101) returns the boolean that [ValidatorManager.validate] returns,
    and when that is [False] the message it returns is the line the old
    validator printed. *)
Theorem refactor_preserves_legacy (reg : StudentRegistration) (out out' : list string) :
  ∃ rs ok msg w,
    demo_rules false = Ok rs
    ∧ register (world rs reg out') = (Ok (ok, msg), w)
    ∧ ValidatorManager_validate {| c_reg := reg; c_stdout := out |}
      = (Ok ok,
         {| c_reg := reg;
            c_stdout := out ++ [legacy_start; if ok then legacy_done else msg] |}).
Proof.
  pose proof (call_validate_returns SksLimitRule {| max_sks := 24 |} reg _
                (SksLimitRule_validate_returns
                   {| f_self := {| max_sks := 24 |}; f_reg := reg |})) as Hsks.
  pose proof (call_validate_returns PrerequisiteRule cs201_needs_cs101 reg _
                (PrerequisiteRule_validate_returns
                   {| f_self := cs201_needs_cs101; f_reg := reg |})) as Hpre.
  cbn [f_self f_reg max_sks] in Hsks, Hpre. rewrite cs201_rule_outcome in Hpre.
  rewrite ValidatorManager_validate_run.
  exists [Rule SksLimitRule {| max_sks := 24 |}; Rule PrerequisiteRule cs201_needs_cs101].
  rewrite register_run.
  destruct (bool_decide (current_sks reg + requested_sks reg > 24)).
  - eexists false, _, _. split; [reflexivity|].
    erewrite register_loop_cons by exact Hsks. split; reflexivity.
  - erewrite register_loop_cons by exact Hsks. cbn [negb].
    destruct (bool_decide ("CS201" ∈ requested_courses reg
                           ∧ "CS101" ∉ completed_courses reg)).
    + eexists false, _, _. split; [reflexivity|].
      erewrite register_loop_cons by exact Hpre. split; reflexivity.
    + eexists true, _, _. split; [reflexivity|].
      erewrite register_loop_cons by exact Hpre. split; reflexivity.
Qed.

(** ** Construction of the schedule rule *)

Lemma default_course_slot_map_non_empty : default_course_slot_map ≠ ∅.
Proof. apply insert_non_empty. Qed.

(** X3: the constructor of the schedule rule never raises.  The rule's
    [existing_schedule] is the given list, or empty when omitted.  Its slot
    table is never empty: a non-empty table is taken as given, while an
    omitted table and an injected empty table both give the built-in
    default table. *)
Theorem JadwalBentrokRule_init_spec
    (given_schedule : option (list string)) (given_map : option (gmap string string)) :
  ∃ self,
    JadwalBentrokRule_init given_schedule given_map = Ok self
    ∧ existing_schedule self = default [] given_schedule
    ∧ course_slot_map self ≠ ∅
    ∧ (∀ m, given_map = Some m → m ≠ ∅ → course_slot_map self = m)
    ∧ (given_map = None ∨ given_map = Some ∅ →
       course_slot_map self = default_course_slot_map).
Proof.
  eexists. split; [reflexivity|]. cbn [existing_schedule course_slot_map].
  split_and!.
  - by destruct given_schedule as [[|x l]|].
  - destruct given_map as [m|]; [|apply default_course_slot_map_non_empty].
    case_decide; [apply default_course_slot_map_non_empty|done].
  - intros m -> Hne. by case_decide.
  - intros [->| ->]; [done|]. by case_decide.
Qed.

Lemma JadwalBentrokRule_init_spec_witness :
  ∃ self,
    JadwalBentrokRule_init (Some []) (Some ∅) = Ok self
    ∧ course_slot_map self = default_course_slot_map
    ∧ JadwalBentrokRule_init None (Some {[ "XX100" := "Fri-13" ]})
      = Ok {| existing_schedule := []; course_slot_map := {[ "XX100" := "Fri-13" ]} |}.
Proof.
  destruct (JadwalBentrokRule_init_spec (Some []) (Some ∅))
    as (self & Hinit & _ & _ & _ & Hdefault).
  exists self. split_and!; [exact Hinit|apply Hdefault; by right|].
  destruct (JadwalBentrokRule_init_spec None (Some {[ "XX100" := "Fri-13" ]}))
    as (self' & Hinit' & Hsched & _ & Hkept & _).
  rewrite Hinit'. f_equal. destruct self' as [sched m]. cbn in Hsched, Hkept.
  rewrite Hsched, (Hkept _ eq_refl); [reflexivity|].
  apply insert_non_empty.
Defined.

(** An injected empty table does not switch the rule off: CS101 and CS201
    still collide on the default table's Mon-09. *)
Example empty_table_is_replaced :
  ∃ self,
    JadwalBentrokRule_init None (Some ∅) = Ok self
    ∧ (validate JadwalBentrokRule
         {| f_self := self;
            f_reg := with_requested newcomer ["CS101"; "CS201"] |}).1
      = Ok (false, "Gagal: Jadwal bentrok untuk CS201 pada slot Mon-09.").
Proof. eexists. split; reflexivity. Qed.

(** ** The coordinator on arbitrary rules *)

Lemma register_loop_cons_raise i r rest w e r' reg' :
  call_validate r (w_reg w) = (Raise e, r', reg') →
  register_loop i (r :: rest) w
  = (Raise e, world (<[i := r']> (rules (w_self w))) reg' (w_stdout w)).
Proof.
  intros Hcall. cbn [register_loop].
  unfold mbind, M_bind, bind, invoke. rewrite Hcall. reflexivity.
Qed.

(** X4: an exception raised by a rule's [validate] leaves [register]
    as that exception.  The rules before it have been invoked and logged in
    order; for the raising rule nothing is logged, and the rules after it
    are not invoked. *)
Theorem register_propagates_exception
    pre r post reg out pre' reg1 lines e r' reg2 :
  passes pre reg pre' reg1 lines →
  call_validate r reg1 = (Raise e, r', reg2) →
  register (world (pre ++ r :: post) reg out)
  = (Raise e, world (pre' ++ r' :: post) reg2 (out ++ lines)).
Proof.
  intros Hpre Hraise. rewrite register_run.
  pose proof (register_loop_passes _ _ _ _ _ Hpre [] (r :: post) out) as Hloop.
  cbn [app length] in Hloop. rewrite Hloop, Nat.add_0_l.
  erewrite register_loop_cons_raise by exact Hraise.
  cbn [world w_self rules w_stdout].
  by rewrite <- (passes_length _ _ _ _ _ Hpre), insert_middle.
Qed.

Lemma register_propagates_exception_witness :
  register (world [Rule SksLimitRule {| max_sks := 24 |};
                   Rule UnfinishedRule UnfinishedRule_new;
                   Rule CountingRule {| calls := 0 |}] demo_reg [])
  = (Raise NotImplementedError,
     world [Rule SksLimitRule {| max_sks := 24 |};
            Rule UnfinishedRule UnfinishedRule_new;
            Rule CountingRule {| calls := 0 |}] demo_reg
           ["[SksLimitRule] -> OK"]).
Proof.
  assert (Hpre : passes [Rule SksLimitRule {| max_sks := 24 |}] demo_reg
                        [Rule SksLimitRule {| max_sks := 24 |}] demo_reg
                        ["[SksLimitRule] -> OK"]).
  { exact (passes_cons (Rule SksLimitRule {| max_sks := 24 |}) [] demo_reg ""
                       (Rule SksLimitRule {| max_sks := 24 |}) demo_reg [] demo_reg []
                       eq_refl (passes_nil demo_reg)). }
  exact (register_propagates_exception
           [Rule SksLimitRule {| max_sks := 24 |}]
           (Rule UnfinishedRule UnfinishedRule_new)
           [Rule CountingRule {| calls := 0 |}]
           demo_reg [] _ demo_reg _ NotImplementedError
           (Rule UnfinishedRule UnfinishedRule_new) demo_reg Hpre eq_refl).
Defined.

Lemma passes_lines_length rs reg rs' reg' lines :
  passes rs reg rs' reg' lines → length lines = length rs.
Proof. induction 1; cbn; congruence. Qed.

(** A run of the rules gets through all of them, or up to the first rule
    that does not report success. *)
Lemma run_cases (rs : list rule) (reg : StudentRegistration) :
  (∃ rs' reg' lines, passes rs reg rs' reg' lines)
  ∨ (∃ pre r post pre' reg1 lines res r' reg2,
       rs = pre ++ r :: post
       ∧ passes pre reg pre' reg1 lines
       ∧ call_validate r reg1 = (res, r', reg2)
       ∧ ∀ msg, res ≠ Ok (true, msg)).
Proof.
  revert reg. induction rs as [|r rs IH]; intros reg.
  - left. eexists _, _, _. constructor.
  - destruct (call_validate r reg) as [[res r'] reg1] eqn:Hcall.
    destruct res as [[[|] msg]|e].
    + destruct (IH reg1) as [(rs' & reg' & lines & Hpass)
                            |(pre & r0 & post & pre' & reg2 & lines & res & r0' & reg3
                              & -> & Hpass & Hr0 & Hstop)].
      * left. eexists _, _, _. econstructor; [exact Hcall|exact Hpass].
      * right. exists (r :: pre), r0, post. eexists _, _, _, res, r0', reg3.
        split_and!; [done| |done|done]. econstructor; [exact Hcall|exact Hpass].
    + right. exists [], r, rs, [], reg, [], (Ok (false, msg)), r', reg1.
      split_and!; [done|constructor|done|done].
    + right. exists [], r, rs, [], reg, [], (Raise e), r', reg1.
      split_and!; [done|constructor|done|done].
Qed.

Lemma register_stops_at pre r post reg out pre' reg1 lines :
  passes pre reg pre' reg1 lines →
  register (world (pre ++ r :: post) reg out)
  = register_loop (length pre') (r :: post)
      (world (pre' ++ r :: post) reg1 (out ++ lines)).
Proof.
  intros Hpre. rewrite register_run.
  pose proof (register_loop_passes _ _ _ _ _ Hpre [] (r :: post) out) as Hloop.
  cbn [app length] in Hloop.
  by rewrite Hloop, Nat.add_0_l, (passes_length _ _ _ _ _ Hpre).
Qed.

Lemma register_completes rs reg out rs' reg' lines :
  passes rs reg rs' reg' lines →
  register (world rs reg out)
  = (Ok (true, success_message), world rs' reg' (out ++ lines)).
Proof.
  intros Hpass. rewrite register_run.
  pose proof (register_loop_passes _ _ _ _ _ Hpass [] [] out) as Hloop.
  cbn [app length] in Hloop. rewrite !app_nil_r in Hloop. by rewrite Hloop.
Qed.

(** X5: what an outcome of [register] tells about the rules.  A success
    is the generic message and means that every rule was invoked, in order,
    and passed; a failure [(False, msg)] means that some rule returned
    exactly that [msg] after all rules before it had passed, and that rule's
    line is the last one logged. *)
Theorem register_outcome_sound rs reg out o w :
  register (world rs reg out) = (Ok o, w) →
  (o = (true, "Registrasi berhasil.")
   ∧ ∃ rs' reg' lines,
       passes rs reg rs' reg' lines ∧ w = world rs' reg' (out ++ lines))
  ∨ (∃ msg pre r post pre' reg1 lines r' reg2,
       o = (false, msg)
       ∧ rs = pre ++ r :: post
       ∧ passes pre reg pre' reg1 lines
       ∧ call_validate r reg1 = (Ok (false, msg), r', reg2)
       ∧ w = world (pre' ++ r' :: post) reg2
               (out ++ lines ++ [log_line (rule_class_name r) false msg])).
Proof.
  intros Hrun.
  destruct (run_cases rs reg) as [(rs' & reg' & lines & Hpass)
                                 |(pre & r & post & pre' & reg1 & lines & res & r' & reg2
                                   & -> & Hpass & Hr & Hstop)].
  - rewrite (register_completes _ _ _ _ _ _ Hpass) in Hrun.
    injection Hrun as <- <-. left. split; [done|]. by eexists _, _, _.
  - rewrite (register_stops_at _ _ _ _ _ _ _ _ Hpass) in Hrun.
    destruct res as [[[|] msg]|e].
    + by destruct (Hstop msg).
    + erewrite register_loop_cons in Hrun by exact Hr.
      cbn [negb world w_self rules w_stdout] in Hrun. rewrite insert_middle in Hrun.
      injection Hrun as <- <-. right.
      exists msg, pre, r, post, pre', reg1, lines, r', reg2.
      split_and!; try done. by rewrite <- (assoc_L (++)).
    + erewrite register_loop_cons_raise in Hrun by exact Hr. discriminate Hrun.
Qed.

Lemma register_outcome_sound_witness :
  ∃ lines,
    passes [Rule SksLimitRule {| max_sks := 24 |};
            Rule CountingRule {| calls := 0 |}] newcomer
           [Rule SksLimitRule {| max_sks := 24 |};
            Rule CountingRule {| calls := 1 |}] newcomer lines.
Proof.
  destruct (register_outcome_sound _ _ _ _ _ counting_rule_reached)
    as [(_ & rs' & reg' & lines & Hpass & Hw)
       |(msg & pre & r & post & pre' & reg1 & lines & r' & reg2 & Ho & _)].
  - injection Hw as <- <- _. by exists lines.
  - discriminate Ho.
Defined.

(** X6: [register] only appends to standard output, at most one line per
    rule, and the rule list keeps its length.  When it returns success it
    has written exactly one line per rule; when a rule raised, fewer. *)
Theorem register_log_bounds rs reg out res w :
  register (world rs reg out) = (res, w) →
  ∃ lines,
    w_stdout w = out ++ lines
    ∧ (length lines ≤ length rs)%nat
    ∧ length (rules (w_self w)) = length rs
    ∧ (∀ msg, res = Ok (true, msg) → length lines = length rs)
    ∧ (∀ e, res = Raise e → (length lines < length rs)%nat).
Proof.
  intros Hrun.
  destruct (run_cases rs reg) as [(rs' & reg' & lines & Hpass)
                                 |(pre & r & post & pre' & reg1 & lines & res0 & r' & reg2
                                   & -> & Hpass & Hr & Hstop)].
  - rewrite (register_completes _ _ _ _ _ _ Hpass) in Hrun.
    injection Hrun as <- <-. exists lines. cbn [world w_stdout w_self rules].
    pose proof (passes_lines_length _ _ _ _ _ Hpass).
    pose proof (passes_length _ _ _ _ _ Hpass).
    split_and!; [done|lia|done|done|done].
  - rewrite (register_stops_at _ _ _ _ _ _ _ _ Hpass) in Hrun.
    pose proof (passes_lines_length _ _ _ _ _ Hpass) as Hlines.
    pose proof (passes_length _ _ _ _ _ Hpass) as Hlen.
    destruct res0 as [[[|] msg]|e].
    + by destruct (Hstop msg).
    + erewrite register_loop_cons in Hrun by exact Hr.
      cbn [negb world w_self rules w_stdout] in Hrun.
      injection Hrun as <- <-.
      exists (lines ++ [log_line (rule_class_name r) false msg]).
      cbn [world w_stdout w_self rules].
      rewrite length_insert, !length_app. cbn [length].
      split_and!; [by rewrite <- (assoc_L (++))|lia|lia|done|done].
    + erewrite register_loop_cons_raise in Hrun by exact Hr.
      injection Hrun as <- <-. exists lines.
      cbn [world w_stdout w_self rules].
      rewrite length_insert, !length_app. cbn [length].
      split_and!; [done|lia|lia|done|intros; lia].
Qed.

Lemma register_log_bounds_witness :
  ∃ lines,
    ["earlier output"; "[SksLimitRule] -> OK"] = ["earlier output"] ++ lines
    ∧ (length lines < 3)%nat.
Proof.
  assert (Hrun : register (world [Rule SksLimitRule {| max_sks := 24 |};
                                  Rule UnfinishedRule UnfinishedRule_new;
                                  Rule CountingRule {| calls := 0 |}]
                                 demo_reg ["earlier output"])
                 = (Raise NotImplementedError,
                    world [Rule SksLimitRule {| max_sks := 24 |};
                           Rule UnfinishedRule UnfinishedRule_new;
                           Rule CountingRule {| calls := 0 |}]
                          demo_reg ["earlier output"; "[SksLimitRule] -> OK"]))
    by reflexivity.
  destruct (register_log_bounds _ _ _ _ _ Hrun) as (lines & Hout & _ & _ & _ & Hraise).
  exists lines. split; [exact Hout|]. exact (Hraise _ eq_refl).
Defined.

(** ** The coordinator on the repository's rules *)

Lemma repo_run_cases rs reg :
  Forall repo_rule rs →
  Forall (passes_quietly reg) rs
  ∨ ∃ pre r post msg,
      rs = pre ++ r :: post
      ∧ Forall (passes_quietly reg) pre
      ∧ call_validate r reg = (Ok (false, msg), r, reg).
Proof.
  induction 1 as [|r rs Hr _ IH]; [by left|].
  destruct (repo_rule_call r reg Hr) as [[[|] msg] Hcall].
  - destruct IH as [Hall|(pre & r0 & post & msg0 & -> & Hpre & Hr0)].
    + left. constructor; [by exists msg|done].
    + right. exists (r :: pre), r0, post, msg0.
      split_and!; [done| |done]. constructor; [by exists msg|done].
  - right. exists [], r, rs, msg. split_and!; [done|constructor|done].
Qed.

Lemma passes_quietly_passes rs reg :
  Forall (passes_quietly reg) rs → ∃ lines, passes rs reg rs reg lines.
Proof.
  induction 1 as [|r rs [msg Hr] _ [lines IH]].
  - eexists. constructor.
  - eexists. econstructor; [exact Hr|exact IH].
Qed.

Lemma register_repo_accepts rs reg out :
  Forall repo_rule rs →
  ∃ ok msg w,
    register (world rs reg out) = (Ok (ok, msg), w)
    ∧ (ok = true ↔ Forall (passes_quietly reg) rs).
Proof.
  intros Hrs.
  destruct (repo_run_cases rs reg Hrs) as [Hall|(pre & r & post & msg & -> & Hpre & Hr)].
  - destruct (passes_quietly_passes _ _ Hall) as [lines Hpass].
    eexists true, _, _. split; [exact (register_completes _ _ _ _ _ _ Hpass)|done].
  - destruct (passes_quietly_passes _ _ Hpre) as [lines Hpass].
    eexists false, msg, _. split.
    + rewrite (register_stops_at _ _ _ _ _ _ _ _ Hpass).
      erewrite register_loop_cons by exact Hr. reflexivity.
    + split; [done|]. intros Hall.
      apply Forall_app in Hall as [_ Hall]. apply Forall_cons in Hall as [[msg' Hr'] _].
      congruence.
Qed.

(** C6: on every request the three rules and the coordinator over them
    return a value and never raise.  The expected failure conditions (sum
    above the cap, a missing prerequisite, a slot collision) each come back
    from the rule as a failure outcome.  The coordinator hands the first
    failure to the caller unchanged: if the rules before some rule pass and
    that rule returns [(False, msg)], then [register] returns exactly
    [(False, msg)]; if every rule passes it returns the generic success; and
    a failure it returns is always the outcome of the first rule in the
    list that did not pass. *)
Theorem expected_failures_are_values :
  (∀ fr : Frame SksLimitRule, ∃ o, (validate SksLimitRule fr).1 = Ok o)
  ∧ (∀ fr : Frame PrerequisiteRule, ∃ o, (validate PrerequisiteRule fr).1 = Ok o)
  ∧ (∀ fr : Frame JadwalBentrokRule, ∃ o, (validate JadwalBentrokRule fr).1 = Ok o)
  ∧ (∀ fr : Frame SksLimitRule,
       current_sks (f_reg fr) + requested_sks (f_reg fr) > max_sks (f_self fr) →
       ∃ msg, (validate SksLimitRule fr).1 = Ok (false, msg))
  ∧ (∀ (fr : Frame PrerequisiteRule) course req,
       course ∈ requested_courses (f_reg fr) →
       req ∈ default [] (prereq_map (f_self fr) !! course) →
       req ∉ completed_courses (f_reg fr) →
       ∃ msg, (validate PrerequisiteRule fr).1 = Ok (false, msg))
  ∧ (∀ fr : Frame JadwalBentrokRule,
       ¬ (NoDup (mapped_slots (f_self fr) (requested_courses (f_reg fr)))
          ∧ Forall (λ s, s ∉ (list_to_set (existing_schedule (f_self fr))
                               ∪ list_to_set (schedule (f_reg fr)) : gset string))
                   (mapped_slots (f_self fr) (requested_courses (f_reg fr)))) →
       ∃ msg, (validate JadwalBentrokRule fr).1 = Ok (false, msg))
  ∧ (∀ rs reg out,
       Forall repo_rule rs →
       ∃ o lines,
         register (world rs reg out) = (Ok o, world rs reg (out ++ lines))
         ∧ (∀ pre r post msg,
              rs = pre ++ r :: post →
              Forall (passes_quietly reg) pre →
              (call_validate r reg).1.1 = Ok (false, msg) →
              o = (false, msg))
         ∧ (Forall (passes_quietly reg) rs → o = (true, "Registrasi berhasil."))
         ∧ (o.1 = false →
            ∃ pre r post,
              rs = pre ++ r :: post
              ∧ Forall (passes_quietly reg) pre
              ∧ (call_validate r reg).1.1 = Ok o)).
Proof.
  split_and!.
  - intros fr. eexists. exact (returns_value _ _ _ (SksLimitRule_validate_returns fr)).
  - intros fr. eexists. exact (returns_value _ _ _ (PrerequisiteRule_validate_returns fr)).
  - intros fr. destruct (JadwalBentrokRule_validate_returns fr) as [o Ho].
    exists o. exact (returns_value _ _ _ Ho).
  - intros fr Hsum. pose proof (SksLimitRule_validate_returns fr) as Hret.
    rewrite (bool_decide_eq_true_2 _ Hsum) in Hret.
    eexists. exact (returns_value _ _ _ Hret).
  - intros fr course req Hcourse Hreq Hmiss.
    pose proof (PrerequisiteRule_validate_returns fr) as Hret.
    destruct (unsatisfied_check_returned (f_reg fr)
                (prerequisite_checks (f_self fr) (f_reg fr)))
      as (check & _ & _ & Hhead).
    { rewrite Forall_forall. intros Hall. apply Hmiss.
      apply (Hall (course, req)). by apply elem_of_prerequisite_checks. }
    rewrite Hhead in Hret. eexists. exact (returns_value _ _ _ Hret).
  - intros fr Hconflict.
    destruct (bentrok_loop_outcome (requested_courses (f_reg fr))
                (list_to_set (existing_schedule (f_self fr))
                   ∪ list_to_set (schedule (f_reg fr))) fr)
      as ([[|] msg] & Hret & Hiff).
    + destruct Hconflict. by apply Hiff.
    + exists msg. apply JadwalBentrokRule_validate_loop in Hret.
      exact (returns_value _ _ _ Hret).
  - intros rs reg out Hrs.
    destruct (register_repo rs reg Hrs) as (o & lines & Hrun & _ & Hfail).
    exists o, lines. split_and!.
    + apply Hrun.
    + intros pre r post msg -> Hpre Hr.
      destruct (call_validate r reg) as [[res r'] reg'] eqn:Hcall.
      cbn [fst] in Hr. subst res.
      destruct (passes_quietly_passes _ _ Hpre) as [lines' Hpass].
      pose proof (Hrun out) as Hout.
      rewrite (register_stops_at _ _ _ _ _ _ _ _ Hpass) in Hout.
      erewrite register_loop_cons in Hout by exact Hcall.
      cbn [negb] in Hout. by injection Hout as <-.
    + intros Hall. destruct (passes_quietly_passes _ _ Hall) as [lines' Hpass].
      pose proof (Hrun out) as Hout.
      rewrite (register_completes _ _ _ _ _ _ Hpass) in Hout.
      by injection Hout as <-.
    + intros Ho. destruct (Hfail Ho) as (pre & r & post & Hsplit & Hpre & Hr).
      exists pre, r, post. split_and!; [done|done|by rewrite Hr].
Qed.

Lemma expected_failures_are_values_witness :
  (register (world [Rule SksLimitRule {| max_sks := 24 |};
                    Rule PrerequisiteRule cs201_needs_cs101;
                    Rule JadwalBentrokRule monday_taken] newcomer [])).1
  = Ok (false, "Gagal: Prasyarat CS101 belum terpenuhi untuk CS201.").
Proof.
  assert (Hrepo : Forall repo_rule
            [Rule SksLimitRule {| max_sks := 24 |};
             Rule PrerequisiteRule cs201_needs_cs101;
             Rule JadwalBentrokRule monday_taken]) by repeat constructor.
  assert (Hpre : Forall (passes_quietly newcomer)
                        [Rule SksLimitRule {| max_sks := 24 |}]).
  { constructor; [|constructor]. by exists "". }
  destruct (proj2 (proj2 (proj2 (proj2 (proj2 (proj2 expected_failures_are_values)))))
              _ newcomer [] Hrepo) as (o & lines & Hrun & Hfirst & _).
  rewrite Hrun.
  exact (f_equal Ok
           (Hfirst [Rule SksLimitRule {| max_sks := 24 |}]
                   (Rule PrerequisiteRule cs201_needs_cs101)
                   [Rule JadwalBentrokRule monday_taken]
                   "Gagal: Prasyarat CS101 belum terpenuhi untuk CS201."
                   eq_refl Hpre eq_refl)).
Defined.

(** X7: over rules of the repository's classes, [register] accepts a
    request exactly when every rule, asked on its own, accepts it.  The
    decision therefore does not depend on the order of the rules: any
    reordering of the list accepts the same requests (the message reported
    on rejection may differ). *)
Theorem register_order_irrelevant rs rs' reg out out' :
  Forall repo_rule rs →
  rs ≡ₚ rs' →
  ∃ ok msg w msg' w',
    register (world rs reg out) = (Ok (ok, msg), w)
    ∧ register (world rs' reg out') = (Ok (ok, msg'), w')
    ∧ (ok = true ↔ Forall (passes_quietly reg) rs).
Proof.
  intros Hrs Hperm.
  assert (Hrs' : Forall repo_rule rs') by (by rewrite <- Hperm).
  destruct (register_repo_accepts rs reg out Hrs) as (ok & msg & w & Hrun & Hok).
  destruct (register_repo_accepts rs' reg out' Hrs') as (ok' & msg' & w' & Hrun' & Hok').
  assert (ok' = ok) as ->.
  { rewrite <- Hperm in Hok'. destruct ok, ok'; try done.
    - by apply Hok', Hok.
    - symmetry. by apply Hok, Hok'. }
  by exists ok, msg, w, msg', w'.
Qed.

Lemma register_order_irrelevant_witness :
  ∃ msg w msg' w',
    register (world [Rule SksLimitRule {| max_sks := 2 |};
                     Rule PrerequisiteRule cs201_needs_cs101] newcomer [])
    = (Ok (false, msg), w)
    ∧ register (world [Rule PrerequisiteRule cs201_needs_cs101;
                       Rule SksLimitRule {| max_sks := 2 |}] newcomer [])
      = (Ok (false, msg'), w').
Proof.
  assert (Hrepo : Forall repo_rule [Rule SksLimitRule {| max_sks := 2 |};
                                    Rule PrerequisiteRule cs201_needs_cs101])
    by repeat constructor.
  assert (Hperm : [Rule SksLimitRule {| max_sks := 2 |};
                   Rule PrerequisiteRule cs201_needs_cs101]
                  ≡ₚ [Rule PrerequisiteRule cs201_needs_cs101;
                      Rule SksLimitRule {| max_sks := 2 |}])
    by apply perm_swap.
  destruct (register_order_irrelevant _ _ newcomer [] [] Hrepo Hperm)
    as (ok & msg & w & msg' & w' & Hrun & Hrun' & _).
  assert (ok = false) as ->.
  { assert (Hfst : (register (world [Rule SksLimitRule {| max_sks := 2 |};
                                     Rule PrerequisiteRule cs201_needs_cs101]
                                    newcomer [])).1
                   = Ok (false, "Gagal: Melebihi batas SKS (max 2).")) by reflexivity.
    rewrite Hrun in Hfst. by injection Hfst as -> _. }
  by exists msg, w, msg', w'.
Defined.

(** The order decides which message a rejected request gets. *)
Example rejection_message_depends_on_order :
  (register (world [Rule SksLimitRule {| max_sks := 2 |};
                    Rule PrerequisiteRule cs201_needs_cs101] newcomer [])).1
  = Ok (false, "Gagal: Melebihi batas SKS (max 2).")
  ∧ (register (world [Rule PrerequisiteRule cs201_needs_cs101;
                      Rule SksLimitRule {| max_sks := 2 |}] newcomer [])).1
    = Ok (false, "Gagal: Prasyarat CS101 belum terpenuhi untuk CS201.").
Proof. split; reflexivity. Qed.

(** ** The single rules, once more *)

(** X8: the credit-limit rule is monotone.  A request that passes keeps
    passing when the cap is raised or when its credit hours sum to less;
    apart from the two credit-hour fields the request is not consulted. *)
Theorem SksLimitRule_monotone (self self' : SksLimitRule) (reg reg' : StudentRegistration) :
  (max_sks self ≤ max_sks self')%Z →
  (current_sks reg' + requested_sks reg' ≤ current_sks reg + requested_sks reg)%Z →
  (validate SksLimitRule {| f_self := self; f_reg := reg |}).1 = Ok (true, "") →
  (validate SksLimitRule {| f_self := self'; f_reg := reg' |}).1 = Ok (true, "").
Proof.
  intros Hcap Hsum Hpass.
  pose proof (returns_value _ _ _ (SksLimitRule_validate_returns
                {| f_self := self; f_reg := reg |})) as Hret.
  pose proof (returns_value _ _ _ (SksLimitRule_validate_returns
                {| f_self := self'; f_reg := reg' |})) as Hret'.
  cbn [f_self f_reg] in Hret, Hret'.
  change (validate SksLimitRule) with SksLimitRule_validate in *.
  rewrite Hret in Hpass. rewrite Hret'.
  destruct (bool_decide (current_sks reg + requested_sks reg > max_sks self))
    eqn:Hover; [discriminate Hpass|].
  apply bool_decide_eq_false in Hover.
  rewrite bool_decide_eq_false_2 by lia. reflexivity.
Qed.

Lemma SksLimitRule_monotone_witness :
  (validate SksLimitRule
     {| f_self := {| max_sks := 30 |}; f_reg := with_requested newcomer [] |}).1
  = Ok (true, "").
Proof.
  apply (SksLimitRule_monotone {| max_sks := 24 |} {| max_sks := 30 |}
           demo_reg (with_requested newcomer [])); [cbn; lia|cbn; lia|reflexivity].
Defined.

Lemma prereq_outcome_cases (self : PrerequisiteRule) (reg : StudentRegistration) :
  let o := default (true, "")
             (head (omap (check_prereq reg) (prerequisite_checks self reg))) in
  (o = (true, "")
   ∧ ∀ course req,
       course ∈ requested_courses reg →
       req ∈ default [] (prereq_map self !! course) →
       req ∈ completed_courses reg)
  ∨ (∃ course req,
       course ∈ requested_courses reg
       ∧ req ∈ default [] (prereq_map self !! course)
       ∧ (req ∉ completed_courses reg)
       ∧ o = (false, prereq_message req course)).
Proof.
  cbn zeta.
  destruct (decide (Forall (λ check : string * string, check.2 ∈ completed_courses reg)
                           (prerequisite_checks self reg))) as [Hall|Hnot].
  - left. rewrite omap_check_satisfied by exact Hall. split; [reflexivity|].
    intros course req Hcourse Hreq. rewrite Forall_forall in Hall.
    apply (Hall (course, req)). by apply elem_of_prerequisite_checks.
  - right. destruct (unsatisfied_check_returned reg _ Hnot)
      as ([course req] & Hin & Hmiss & ->).
    apply elem_of_prerequisite_checks in Hin as [Hcourse Hreq].
    by exists course, req.
Qed.

(** X9: the prerequisite rule passes, with an empty message, exactly when
    every prerequisite of every requested course is among the completed
    courses; so an empty request, or a map without entries for the requested
    courses, always passes.  Every failure it reports is genuine: the
    message names a requested course and one of its prerequisites that is
    not completed. *)
Theorem PrerequisiteRule_validate_iff (self : PrerequisiteRule) (reg : StudentRegistration) :
  let fr := {| f_self := self; f_reg := reg |} in
  ∃ ok msg,
    validate PrerequisiteRule fr = (Ok (ok, msg), fr)
    ∧ (ok = true
       ↔ ∀ course req,
           course ∈ requested_courses reg →
           req ∈ default [] (prereq_map self !! course) →
           req ∈ completed_courses reg)
    ∧ (ok = true → msg = "")
    ∧ (ok = false →
       ∃ course req,
         course ∈ requested_courses reg
         ∧ req ∈ default [] (prereq_map self !! course)
         ∧ (req ∉ completed_courses reg)
         ∧ msg = "Gagal: Prasyarat " +:+ req +:+ " belum terpenuhi untuk "
                   +:+ course +:+ ".").
Proof.
  intros fr. pose proof (PrerequisiteRule_validate_returns fr) as Hret.
  cbn [fr f_self f_reg] in Hret.
  destruct (prereq_outcome_cases self reg)
    as [[Ho Hall]|(course & req & Hcourse & Hreq & Hmiss & Ho)];
    cbn zeta in Ho; rewrite Ho in Hret.
  - exists true, "". split_and!; [exact Hret|done|done|done].
  - exists false, (prereq_message req course). split_and!; [exact Hret| |done|].
    + split; [done|]. intros Hall. destruct Hmiss. by apply (Hall course).
    + intros _. by exists course, req.
Qed.

Lemma PrerequisiteRule_validate_iff_witness :
  ∃ course req,
    course ∈ requested_courses newcomer
    ∧ req ∈ default [] (prereq_map cs201_needs_cs101 !! course)
    ∧ req ∉ completed_courses newcomer.
Proof.
  destruct (PrerequisiteRule_validate_iff cs201_needs_cs101 newcomer)
    as (ok & msg & Hrun & _ & _ & Hfail).
  assert (ok = false) as ->.
  { assert (Hfst : (validate PrerequisiteRule
                      {| f_self := cs201_needs_cs101; f_reg := newcomer |}).1
                   = Ok (false, "Gagal: Prasyarat CS101 belum terpenuhi untuk CS201."))
      by reflexivity.
    rewrite Hrun in Hfst. by injection Hfst as -> _. }
  destruct (Hfail eq_refl) as (course & req & Hcourse & Hreq & Hmiss & _).
  by exists course, req.
Defined.

(** X10: the prerequisite rule is monotone.  A request that passes keeps
    passing when courses are dropped from (or reordered in) the requested
    list and when courses are added to the completed list; only membership
    in the two lists matters for passing. *)
Theorem PrerequisiteRule_monotone (self : PrerequisiteRule) (reg reg' : StudentRegistration) :
  (∀ course, course ∈ requested_courses reg' → course ∈ requested_courses reg) →
  (∀ course, course ∈ completed_courses reg → course ∈ completed_courses reg') →
  (validate PrerequisiteRule {| f_self := self; f_reg := reg |}).1 = Ok (true, "") →
  (validate PrerequisiteRule {| f_self := self; f_reg := reg' |}).1 = Ok (true, "").
Proof.
  intros Hrequested Hcompleted Hpass.
  pose proof (returns_value _ _ _ (PrerequisiteRule_validate_returns
                {| f_self := self; f_reg := reg |})) as Hret.
  pose proof (returns_value _ _ _ (PrerequisiteRule_validate_returns
                {| f_self := self; f_reg := reg' |})) as Hret'.
  cbn [f_self f_reg] in Hret, Hret'.
  change (validate PrerequisiteRule) with PrerequisiteRule_validate in *.
  rewrite Hret in Hpass. rewrite Hret'. clear Hret Hret'.
  destruct (prereq_outcome_cases self reg)
    as [[_ Hall]|(course & req & _ & _ & _ & Ho)]; cbn zeta in *.
  - destruct (prereq_outcome_cases self reg')
      as [[Ho' _]|(course & req & Hcourse & Hreq & Hmiss & _)]; cbn zeta in *.
    + by rewrite Ho'.
    + destruct Hmiss. apply Hcompleted, (Hall course); [by apply Hrequested|done].
  - rewrite Ho in Hpass. discriminate Hpass.
Qed.

Lemma PrerequisiteRule_monotone_witness :
  (validate PrerequisiteRule
     {| f_self := cs201_needs_cs101;
        f_reg := with_requested demo_reg ["MA101"; "CS201"; "CS201"] |}).1
  = Ok (true, "").
Proof.
  apply (PrerequisiteRule_monotone cs201_needs_cs101 demo_reg
           (with_requested demo_reg ["MA101"; "CS201"; "CS201"])).
  - intros course Hin. cbn in Hin |- *.
    repeat (apply elem_of_cons in Hin as [->|Hin]);
      [by right; left|by left|by left|by apply elem_of_nil in Hin].
  - by intros course Hin.
  - reflexivity.
Defined.

Lemma bentrok_loop_failure_inv courses occupied (fr : Frame JadwalBentrokRule) msg :
  returns (bentrok_loop courses occupied) fr (false, msg) →
  ∃ pre course post slot,
    courses = pre ++ course :: post
    ∧ course_slot_map (f_self fr) !! course = Some slot
    ∧ msg = bentrok_message course slot
    ∧ (slot ∈ occupied ∨ slot ∈ mapped_slots (f_self fr) pre).
Proof.
  revert occupied. induction courses as [|c rest IH]; intros occupied Hret.
  - discriminate Hret.
  - unfold returns in Hret. cbn [bentrok_loop] in Hret. unfold get_self in Hret.
    rewrite bind_gets in Hret.
    destruct (course_slot_map (f_self fr) !! c) as [s|] eqn:Hc.
    + destruct (decide (s ∈ occupied)) as [Hin|Hout].
      * rewrite (bool_decide_eq_true_2 _ Hin) in Hret. injection Hret as <-.
        exists [], c, rest, s. split_and!; [done|done|done|by left].
      * rewrite (bool_decide_eq_false_2 _ Hout) in Hret.
        destruct (IH _ Hret) as (pre & course & post & slot & -> & Hslot & -> & Hocc).
        exists (c :: pre), course, post, slot. split_and!; [done|done|done|].
        unfold mapped_slots. cbn [omap list_omap]. rewrite Hc.
        destruct Hocc as [[->%elem_of_singleton|Hocc]%elem_of_union|Hocc].
        -- right. left.
        -- by left.
        -- right. by right.
    + destruct (IH _ Hret) as (pre & course & post & slot & -> & Hslot & -> & Hocc).
      exists (c :: pre), course, post, slot. split_and!; [done|done|done|].
      unfold mapped_slots. cbn [omap list_omap]. by rewrite Hc.
Qed.

Lemma elem_of_mapped_slots self courses slot :
  slot ∈ mapped_slots self courses
  ↔ ∃ course, course ∈ courses ∧ course_slot_map self !! course = Some slot.
Proof. unfold mapped_slots. apply list_elem_of_omap. Qed.

(** X11: every conflict the schedule rule reports is genuine.  A failure
    message names a requested course and the slot the rule's table gives it,
    and that slot is in [existing_schedule], in the request's [schedule], or
    is the slot of a course requested earlier in the list. *)
Theorem JadwalBentrokRule_failure_genuine
    (self : JadwalBentrokRule) (reg : StudentRegistration) (msg : string) :
  (validate JadwalBentrokRule {| f_self := self; f_reg := reg |}).1 = Ok (false, msg) →
  ∃ pre course post slot,
    requested_courses reg = pre ++ course :: post
    ∧ course_slot_map self !! course = Some slot
    ∧ msg = "Gagal: Jadwal bentrok untuk " +:+ course +:+ " pada slot " +:+ slot +:+ "."
    ∧ (slot ∈ existing_schedule self
       ∨ slot ∈ schedule reg
       ∨ ∃ earlier, earlier ∈ pre ∧ course_slot_map self !! earlier = Some slot).
Proof.
  intros Hfail.
  destruct (bentrok_loop_returns (requested_courses reg)
              (list_to_set (existing_schedule self) ∪ list_to_set (schedule reg))
              {| f_self := self; f_reg := reg |}) as [o Hloop].
  pose proof (returns_value _ _ _
                (JadwalBentrokRule_validate_loop {| f_self := self; f_reg := reg |} o Hloop))
    as Hval.
  change (validate JadwalBentrokRule) with JadwalBentrokRule_validate in Hfail.
  rewrite Hval in Hfail. injection Hfail as ->.
  destruct (bentrok_loop_failure_inv _ _ _ _ Hloop)
    as (pre & course & post & slot & Hsplit & Hslot & -> & Hocc).
  cbn [f_self f_reg] in *. exists pre, course, post, slot.
  split_and!; [done|done|done|].
  destruct Hocc as [[Hin|Hin]%elem_of_union|Hin].
  - left. by apply elem_of_list_to_set in Hin.
  - right. left. by apply elem_of_list_to_set in Hin.
  - right. right. by apply elem_of_mapped_slots.
Qed.

Lemma JadwalBentrokRule_failure_genuine_witness :
  ∃ pre course post slot,
    requested_courses (with_requested newcomer ["CS101"; "XX999"; "CS201"])
    = pre ++ course :: post
    ∧ course_slot_map nothing_taken !! course = Some slot
    ∧ ∃ earlier, earlier ∈ pre ∧ course_slot_map nothing_taken !! earlier = Some slot.
Proof.
  destruct (JadwalBentrokRule_failure_genuine nothing_taken
              (with_requested newcomer ["CS101"; "XX999"; "CS201"])
              "Gagal: Jadwal bentrok untuk CS201 pada slot Mon-09." eq_refl)
    as (pre & course & post & slot & Hsplit & Hslot & _ & [Hin|[Hin|Hearlier]]).
  - by apply elem_of_nil in Hin.
  - by apply elem_of_nil in Hin.
  - by exists pre, course, post, slot.
Defined.

Lemma sublist_omap {A B} (f : A → option B) (l k : list A) :
  l `sublist_of` k → omap f l `sublist_of` omap f k.
Proof.
  induction 1 as [|x l k _ IH|x l k _ IH]; cbn [omap list_omap].
  - constructor.
  - destruct (f x); [by constructor|done].
  - destruct (f x); [by constructor|done].
Qed.

Lemma JadwalBentrokRule_passes_iff (fr : Frame JadwalBentrokRule) :
  ∃ o,
    returns JadwalBentrokRule_validate fr o
    ∧ (o.1 = true
       ↔ NoDup (mapped_slots (f_self fr) (requested_courses (f_reg fr)))
         ∧ Forall (λ s, s ∉ (list_to_set (existing_schedule (f_self fr))
                              ∪ list_to_set (schedule (f_reg fr)) : gset string))
                  (mapped_slots (f_self fr) (requested_courses (f_reg fr)))).
Proof.
  destruct (bentrok_loop_outcome (requested_courses (f_reg fr))
              (list_to_set (existing_schedule (f_self fr))
                 ∪ list_to_set (schedule (f_reg fr))) fr) as (o & Hret & Hiff).
  exists o. split; [by apply JadwalBentrokRule_validate_loop|exact Hiff].
Qed.

(** X12: the schedule rule is monotone.  With the same slot table, a
    request that passes keeps passing when requested courses are dropped
    (keeping the order of the rest) and when slots are removed from
    [existing_schedule] or from the request's [schedule]: fewer courses and
    fewer occupied slots never create a conflict. *)
Theorem JadwalBentrokRule_monotone
    (self self' : JadwalBentrokRule) (reg reg' : StudentRegistration) :
  course_slot_map self' = course_slot_map self →
  (∀ slot, slot ∈ existing_schedule self' → slot ∈ existing_schedule self) →
  (∀ slot, slot ∈ schedule reg' → slot ∈ schedule reg) →
  requested_courses reg' `sublist_of` requested_courses reg →
  (validate JadwalBentrokRule {| f_self := self; f_reg := reg |}).1 = Ok (true, "") →
  (validate JadwalBentrokRule {| f_self := self'; f_reg := reg' |}).1 = Ok (true, "").
Proof.
  intros Hmap Hexisting Hschedule Hsub Hpass.
  destruct (JadwalBentrokRule_passes_iff {| f_self := self; f_reg := reg |})
    as (o & Hret & Hiff).
  change (validate JadwalBentrokRule) with JadwalBentrokRule_validate in *.
  rewrite (returns_value _ _ _ Hret) in Hpass. injection Hpass as ->.
  destruct (proj1 Hiff eq_refl) as [Hnd Hfree]. cbn [f_self f_reg] in Hnd, Hfree.
  assert (Hslots : mapped_slots self' (requested_courses reg')
                   `sublist_of` mapped_slots self (requested_courses reg)).
  { unfold mapped_slots. rewrite Hmap. by apply sublist_omap. }
  apply (returns_value JadwalBentrokRule_validate).
  apply JadwalBentrokRule_validate_loop, bentrok_loop_free; cbn [f_self f_reg].
  - by eapply sublist_NoDup.
  - rewrite Forall_forall in Hfree |- *. intros s Hs Hocc.
    apply (Hfree s (elem_of_sublist _ _ _ Hs Hslots)).
    apply elem_of_union in Hocc as [Hocc|Hocc]; apply elem_of_union;
      [left|right]; apply elem_of_list_to_set; apply elem_of_list_to_set in Hocc; auto.
Qed.

Lemma JadwalBentrokRule_monotone_witness :
  (validate JadwalBentrokRule
     {| f_self := nothing_taken;
        f_reg := with_requested newcomer ["CS101"; "MA101"] |}).1
  = Ok (true, "").
Proof.
  apply (JadwalBentrokRule_monotone
           {| existing_schedule := ["Fri-08"]; course_slot_map := default_course_slot_map |}
           nothing_taken
           (with_requested demo_before_reg ["CS101"; "XX999"; "MA101"])
           (with_requested newcomer ["CS101"; "MA101"])).
  - reflexivity.
  - intros slot Hin. by apply elem_of_nil in Hin.
  - intros slot Hin. by apply elem_of_nil in Hin.
  - cbn. apply sublist_skip, sublist_cons, sublist_skip, sublist_nil.
  - reflexivity.
Defined.

(** ** The script as a whole *)

(** What running the script prints: the old validator rejects its request
    on the credit limit, the refactored service accepts the second request
    and, with the schedule rule added, rejects it. *)
Example main_output :
  main []
  = (Ok tt,
     [String (Ascii.ascii_of_nat 10) "=== Demo BEFORE refactor (ValidatorManager) ===";
      "ValidatorManager: memulai validasi gabungan...";
      "Gagal: Melebihi batas SKS (max 24).";
      "Hasil ValidatorManager: False";
      "";
      String (Ascii.ascii_of_nat 10)
        "=== Demo AFTER refactor (RegistrationService with Rules) ===";
      "[SksLimitRule] -> OK";
      "[PrerequisiteRule] -> OK";
      "Hasil RegistrationService: True Registrasi berhasil.";
      "";
      String (Ascii.ascii_of_nat 10)
        "=== Demo AFTER refactor (RegistrationService with Rules) ===";
      "[SksLimitRule] -> OK";
      "[PrerequisiteRule] -> OK";
      "[JadwalBentrokRule] -> FAIL - Gagal: Jadwal bentrok untuk CS201 pada slot Mon-09.";
      "Hasil RegistrationService: False Gagal: Jadwal bentrok untuk CS201 pada slot Mon-09.";
      ""]).
Proof. vm_compute. reflexivity. Qed.
